(** * Flask-Compress: the response-compression hook

    A shallow embedding of [flask_compress.py]: the in-process cache
    [DictCache], the configuration defaults and hook registration of
    [Compress.init_app], and the per-response pipeline
    [Compress.after_request] with its two compression methods.

    Python objects that the pipeline mutates in place (the response, the
    cache) live in an explicit [World]; a Python exception is the [Raise]
    outcome of a small state-and-error monad.  The gzip and Brotli engines
    and the cache backend are external: the engines are the fields of the
    class [Codecs], the backend is an instance of [CacheBackend]. *)

From Stdlib Require Import ZArith List String Ascii Bool Lia DecimalString.
From stdpp Require Import base option gmap strings list.

Open Scope string_scope.
Open Scope Z_scope.

#[local] Arguments String.append !s1 s2 : simpl nomatch.

(** ** Python strings and bytes *)

Abbreviation bytes := (list Byte.byte).

(** [c.lower()] on one character; only the letters A to Z change. *)
Definition ascii_lower (c : ascii) : ascii :=
  let n := N_of_ascii c in
  if ((65 <=? n) && (n <=? 90))%N then ascii_of_N (n + 32) else c.

(** [s.lower()] *)
Fixpoint str_lower (s : string) : string :=
  match s with
  | EmptyString => EmptyString
  | String c s' => String (ascii_lower c) (str_lower s')
  end.

(** [s.startswith(p)] *)
Fixpoint str_startswith (p s : string) : bool :=
  match p, s with
  | EmptyString, _ => true
  | String a p', String b s' => Ascii.eqb a b && str_startswith p' s'
  | String _ _, EmptyString => false
  end.

(** [needle in hay] on strings: [needle] occurs somewhere in [hay]. *)
Fixpoint str_contains (needle hay : string) : bool :=
  str_startswith needle hay ||
  match hay with
  | EmptyString => false
  | String _ hay' => str_contains needle hay'
  end.

(** [str(n)] for an integer. *)
Definition str_of_int (n : Z) : string := NilZero.string_of_int (Z.to_int n).

(** [len(b)] *)
Definition len (b : bytes) : Z := Z.of_nat (length b).

(** Truth value of a string: the empty string is false. *)
Definition str_truthy (s : string) : bool :=
  match s with EmptyString => false | String _ _ => true end.

(** Truth value of a bytes object: the empty one is false. *)
Definition bytes_truthy (b : bytes) : bool :=
  match b with [] => false | _ :: _ => true end.

(** ** Reading a comma-separated header value

    Not part of the program: the list of tokens of a header value such as
    [Vary], used to state what the header holds.  A token is what stands
    between two commas, without the surrounding blanks. *)

Definition is_blank (c : ascii) : bool :=
  Ascii.eqb c " " || Ascii.eqb c "009".

Fixpoint lstrip (s : string) : string :=
  match s with
  | String c s' => if is_blank c then lstrip s' else s
  | EmptyString => EmptyString
  end.

Fixpoint str_rev_onto (s acc : string) : string :=
  match s with
  | EmptyString => acc
  | String c s' => str_rev_onto s' (String c acc)
  end.

Definition str_rev (s : string) : string := str_rev_onto s EmptyString.

Definition strip (s : string) : string := str_rev (lstrip (str_rev (lstrip s))).

(** [split_commas cur s]: the pieces of [rev cur ++ s] between commas. *)
Fixpoint split_commas (cur : string) (s : string) : list string :=
  match s with
  | EmptyString => [str_rev cur]
  | String c s' =>
      if Ascii.eqb c "," then str_rev cur :: split_commas EmptyString s'
      else split_commas (String c cur) s'
  end.

Definition header_tokens (v : string) : list string :=
  map strip (split_commas EmptyString v).

Definition count_token (t : string) (v : string) : nat :=
  length (filter (fun x => String.eqb x t = true) (header_tokens v)).

(** ** Outcomes *)

Inductive exn : Type :=
| TypeError (msg : string)
| AttributeError (msg : string)
| LibraryError (msg : string).

Inductive Res (A : Type) : Type :=
| Return (a : A)
| Raise (e : exn).
Arguments Return {A} a.
Arguments Raise {A} e.

(** ** The framework's header mapping

    Keys compare without regard to case; [headers[k] = v] replaces the
    first entry of that key, drops the others, and appends when there is
    none. *)

Abbreviation Headers := (list (string * string)).

Definition key_eqb (k k' : string) : bool :=
  String.eqb (str_lower k) (str_lower k').

(** [headers.get(k)] *)
Fixpoint headers_get (k : string) (h : Headers) : option string :=
  match h with
  | [] => None
  | (k', v) :: h' => if key_eqb k k' then Some v else headers_get k h'
  end.

(** [k in headers] *)
Definition headers_contains (k : string) (h : Headers) : bool :=
  match headers_get k h with Some _ => true | None => false end.

(** [headers[k] = v] *)
Fixpoint headers_set (k v : string) (h : Headers) : Headers :=
  match h with
  | [] => [(k, v)]
  | (k', v') :: h' =>
      if key_eqb k k'
      then (k, v) :: filter (fun kv => key_eqb k (fst kv) = false) h'
      else (k', v') :: headers_set k v h'
  end.

(** ** The response and the request *)

Record Response : Type := mkResponse {
  mimetype : string;
  status_code : Z;
  content_length : option Z;
  headers : Headers;
  data : bytes;
  direct_passthrough : bool
}.

Record Request : Type := mkRequest { request_headers : Headers }.

Definition with_direct_passthrough (b : bool) (r : Response) : Response :=
  mkResponse (mimetype r) (status_code r) (content_length r) (headers r)
             (data r) b.

(** [response.set_data(value)]: the body is replaced and the content
    length follows it. *)
Definition with_data (value : bytes) (r : Response) : Response :=
  mkResponse (mimetype r) (status_code r) (Some (len value)) (headers r)
             value (direct_passthrough r).

Definition with_header (k v : string) (r : Response) : Response :=
  mkResponse (mimetype r) (status_code r) (content_length r)
             (headers_set k v (headers r)) (data r) (direct_passthrough r).

(** ** Constants of the class [Compress] *)

Inductive Encoding : Type := BROTLI | GZIP.

(** [CONTENT_ENCODINGS[encoding]] *)
Definition CONTENT_ENCODINGS (encoding : Encoding) : string :=
  match encoding with BROTLI => "brotli" | GZIP => "gzip" end.

Definition TEXT_TYPES : gset string :=
  {[ "text/html"; "text/css"; "text/xml"; "application/json";
     "application/javascript" ]}.

(** [zlib.Z_BEST_COMPRESSION] *)
Definition Z_BEST_COMPRESSION : Z := 9.

(** ** The external engines *)

Inductive BrotliMode : Type := MODE_GENERIC | MODE_TEXT.

(** What the two libraries answer: [GzipFile_write level body] is the
    content of the buffer after
    [GzipFile(mode='wb', compresslevel=level, fileobj=buffer)] has written
    [body] and been closed; [brotli_compress body mode quality] is
    [brotli.compress(body, mode, quality)].  Either may raise. *)
Class Codecs : Type := {
  GzipFile_write : Z -> bytes -> Res bytes;
  brotli_compress : bytes -> BrotliMode -> Z -> Res bytes
}.

(** One call of an engine, with the arguments it was given. *)
Inductive Call : Type :=
| GzipCall (compresslevel : Z) (body : bytes)
| BrotliCall (body : bytes) (mode : BrotliMode) (quality : Z).

(** ** The cache capability

    A backend has [get(key)] and [set(key, value)]; both act on the
    backend's state and either may raise. *)
Class CacheBackend (C : Type) : Type := {
  cache_get : string -> C -> Res (option bytes) * C;
  cache_set : string -> bytes -> C -> Res unit * C
}.

(** The in-process backend of the module: a dictionary. *)
Record DictCache : Type := mkDictCache { cache_data : gmap string bytes }.

Definition DictCache_init : DictCache := mkDictCache ∅.

Definition DictCache_get (key : string) (self : DictCache)
  : Res (option bytes) * DictCache :=
  (Return (cache_data self !! key), self).

Definition DictCache_set (key : string) (value : bytes) (self : DictCache)
  : Res unit * DictCache :=
  (Return tt, mkDictCache (<[key := value]> (cache_data self))).

#[export] Instance DictCache_backend : CacheBackend DictCache :=
  {| cache_get := DictCache_get; cache_set := DictCache_set |}.

(** ** Configuration *)

(** A cache key function reads the response and answers a key, or raises. *)
Definition KeyFn : Type := Response -> Res string.

(** [app.config] once every option of the extension is present. *)
Record Config (C : Type) : Type := mkConfig {
  COMPRESS_MIMETYPES : gset string;
  COMPRESS_LEVEL : Z;
  COMPRESS_MIN_SIZE : Z;
  ENABLE_GZIP : bool;
  ENABLE_BROTLI : bool;
  GZIP_COMPRESS_CACHE_KEY : option KeyFn;
  BROTLI_COMPRESS_CACHE_KEY : option KeyFn;
  COMPRESS_CACHE_BACKEND : option C;
  COMPRESS_REGISTER : bool
}.
Arguments mkConfig {C}.
Arguments COMPRESS_MIMETYPES {C}.
Arguments COMPRESS_LEVEL {C}.
Arguments COMPRESS_MIN_SIZE {C}.
Arguments ENABLE_GZIP {C}.
Arguments ENABLE_BROTLI {C}.
Arguments GZIP_COMPRESS_CACHE_KEY {C}.
Arguments BROTLI_COMPRESS_CACHE_KEY {C}.
Arguments COMPRESS_CACHE_BACKEND {C}.
Arguments COMPRESS_REGISTER {C}.

(** [app.config] as the application hands it over: an option may be
    missing.  The value of a cache key option may itself be [None], and
    [COMPRESS_CACHE_BACKEND] holds what the factory builds when called. *)
Record UserConfig (C : Type) : Type := mkUserConfig {
  user_COMPRESS_MIMETYPES : option (gset string);
  user_COMPRESS_LEVEL : option Z;
  user_COMPRESS_MIN_SIZE : option Z;
  user_ENABLE_GZIP : option bool;
  user_ENABLE_BROTLI : option bool;
  user_GZIP_COMPRESS_CACHE_KEY : option (option KeyFn);
  user_BROTLI_COMPRESS_CACHE_KEY : option (option KeyFn);
  user_COMPRESS_CACHE_BACKEND : option (option C);
  user_COMPRESS_REGISTER : option bool
}.
Arguments mkUserConfig {C}.
Arguments user_COMPRESS_MIMETYPES {C}.
Arguments user_COMPRESS_LEVEL {C}.
Arguments user_COMPRESS_MIN_SIZE {C}.
Arguments user_ENABLE_GZIP {C}.
Arguments user_ENABLE_BROTLI {C}.
Arguments user_GZIP_COMPRESS_CACHE_KEY {C}.
Arguments user_BROTLI_COMPRESS_CACHE_KEY {C}.
Arguments user_COMPRESS_CACHE_BACKEND {C}.
Arguments user_COMPRESS_REGISTER {C}.

(** [config.setdefault(k, v)] followed by [config[k]] *)
Definition setdefault {A : Type} (present : option A) (v : A) : A :=
  match present with Some x => x | None => v end.

(** ** The world of one request *)

Record World (C : Type) : Type := mkWorld {
  response : Response;
  _cache : option C;
  calls : list Call
}.
Arguments mkWorld {C}.
Arguments response {C}.
Arguments _cache {C}.
Arguments calls {C}.

Section Pipeline.
Context {C : Type} {backend : CacheBackend C} {codecs : Codecs}.

(** ** State and exceptions *)

Definition M (A : Type) : Type := World C -> Res A * World C.

Definition ret {A : Type} (a : A) : M A := fun w => (Return a, w).

Definition raise {A : Type} (e : exn) : M A := fun w => (Raise e, w).

Definition bind {A B : Type} (m : M A) (k : A -> M B) : M B :=
  fun w =>
    match m w with
    | (Return a, w') => k a w'
    | (Raise e, w') => (Raise e, w')
    end.

#[global] Instance M_ret : MRet M := @ret.
#[global] Instance M_bind : MBind M := fun A B k m => bind m k.

Definition get_response : M Response := fun w => (Return (response w), w).

Definition modify_response (f : Response -> Response) : M unit :=
  fun w => (Return tt, mkWorld (f (response w)) (_cache w) (calls w)).

Definition get_cache : M (option C) := fun w => (Return (_cache w), w).

(** A call of an engine is recorded with its arguments. *)
Definition record (c : Call) : M unit :=
  fun w => (Return tt, mkWorld (response w) (_cache w) (calls w ++ [c])).

Definition lift {A : Type} (r : Res A) : M A := fun w => (r, w).

(** [self._cache.get(key)] *)
Definition _cache_get (key : string) : M (option bytes) :=
  fun w =>
    match _cache w with
    | Some c =>
        let (r, c') := cache_get key c in
        (r, mkWorld (response w) (Some c') (calls w))
    | None => (Raise (AttributeError "get"), w)
    end.

(** [self._cache.set(key, value)] *)
Definition _cache_set (key : string) (value : bytes) : M unit :=
  fun w =>
    match _cache w with
    | Some c =>
        let (r, c') := cache_set key value c in
        (r, mkWorld (response w) (Some c') (calls w))
    | None => (Raise (AttributeError "set"), w)
    end.

(** ** The object [Compress] *)

Record Compress : Type := mkCompress {
  _gzip_cache_key : option KeyFn;
  _brotli_cache_key : option KeyFn
}.

(** [self._cache_keys[encoding]] *)
Definition _cache_keys (self : Compress) (encoding : Encoding)
  : option KeyFn :=
  match encoding with
  | BROTLI => _brotli_cache_key self
  | GZIP => _gzip_cache_key self
  end.

(** Calling what a cache key option holds; [None] is not callable. *)
Definition call_key (f : option KeyFn) (r : Response) : M string :=
  match f with
  | Some f => lift (f r)
  | None => raise (TypeError "'NoneType' object is not callable")
  end.

(** [_gzip_compress(self, app, response)] (lines 146 to 155).  The local
    [level] is computed and not used: [GzipFile] is given
    [app.config['COMPRESS_LEVEL']]. *)
Definition _gzip_compress (app : Config C) : M bytes :=
  response ← get_response;
  (* Brotli's max compression goes to 11, but zlib only goes to 9 *)
  let level := Z.min Z_BEST_COMPRESSION (COMPRESS_LEVEL app) in
  let compresslevel := COMPRESS_LEVEL app in
  record (GzipCall compresslevel (data response));;
  lift (GzipFile_write compresslevel (data response)).

(** [_brotli_compress(self, app, response)] (lines 157 to 165) *)
Definition _brotli_compress (app : Config C) : M bytes :=
  response ← get_response;
  let mode :=
    if bool_decide (mimetype response ∈ TEXT_TYPES)
    then MODE_TEXT else MODE_GENERIC in
  record (BrotliCall (data response) mode (COMPRESS_LEVEL app));;
  lift (brotli_compress (data response) mode (COMPRESS_LEVEL app)).

(** [self._compress_methods[encoding]] *)
Definition _compress_methods (encoding : Encoding) : Config C -> M bytes :=
  match encoding with
  | BROTLI => _brotli_compress
  | GZIP => _gzip_compress
  end.

(** ** [Compress.after_request], in the order of the source *)

(** The condition of the first [if] (lines 103 to 107): some eligibility
    test fails. *)
Definition not_eligible (app : Config C) (response : Response) : bool :=
  negb (bool_decide (mimetype response ∈ COMPRESS_MIMETYPES app))
  || negb ((200 <=? status_code response) && (status_code response <? 300))
  || match content_length response with
     | None => true
     | Some n => n <? COMPRESS_MIN_SIZE app
     end
  || headers_contains "Content-Encoding" (headers response).

(** The value of [encoding] after the [if]/[elif] (lines 110 to 115). *)
Definition select_encoding (app : Config C) (accept_encoding : string)
  : option Encoding :=
  (* Default to Brotli if both are available *)
  if ENABLE_BROTLI app && str_contains "brotli" (str_lower accept_encoding)
  then Some BROTLI
  else if ENABLE_GZIP app && str_contains "gzip" (str_lower accept_encoding)
  then Some GZIP
  else None.

(** [cached or self._compress_methods[encoding](app, response)], where
    [cached] is what the cache has answered: a value that is [None] or
    empty counts as false and the engine runs. *)
Definition cached_or_compress (encoding : Encoding) (app : Config C)
    (cached : option bytes) : M bytes :=
  match cached with
  | Some b => if bytes_truthy b then ret b else _compress_methods encoding app
  | None => _compress_methods encoding app
  end.

(** The value of [compressed_content] (lines 122 to 130). *)
Definition compressed_content (self : Compress) (app : Config C)
    (encoding : Encoding) : M bytes :=
  cache ← get_cache;
  match cache with
  | Some _ =>
      response ← get_response;
      key ← call_key (_cache_keys self encoding) response;
      cached ← _cache_get key;
      content ← cached_or_compress encoding app cached;
      _cache_set key content;;
      ret content
  | None => _compress_methods encoding app
  end.

(** The value written into [Vary] (lines 137 to 142); [None] when the
    header is left as it is. *)
Definition merge_vary (vary : option string) : option string :=
  match vary with
  | Some v =>
      if str_truthy v then
        if negb (str_contains "accept-encoding" (str_lower v))
        then Some (v ++ ", Accept-Encoding")
        else None
      else Some "Accept-Encoding"
  | None => Some "Accept-Encoding"
  end.

(** From [response.set_data] to the end (lines 132 to 142). *)
Definition rewrite_response (encoding : Encoding) (content : bytes)
  : M unit :=
  modify_response (with_data content);;
  modify_response
    (with_header "Content-Encoding" (CONTENT_ENCODINGS encoding));;
  response ← get_response;
  modify_response
    (with_header "Content-Length"
       (match content_length response with
        | Some n => str_of_int n
        | None => "None"
        end));;
  response ← get_response;
  match merge_vary (headers_get "Vary" (headers response)) with
  | Some v => modify_response (with_header "Vary" v)
  | None => ret tt
  end.

(** [request.headers.get('Accept-Encoding', '')] *)
Definition accept_encoding_of (request : Request) : string :=
  match headers_get "Accept-Encoding" (request_headers request) with
  | Some v => v
  | None => ""
  end.

(** What follows [if encoding is None: return response] (lines 120 to
    144). *)
Definition apply_encoding (self : Compress) (app : Config C)
    (encoding : Encoding) : M unit :=
  modify_response (with_direct_passthrough false);;
  content ← compressed_content self app encoding;
  rewrite_response encoding content.

(** [after_request(self, response)] (lines 98 to 144); the response is the
    one of the world, [app] is [app.config] and [request] the current
    request. *)
Definition after_request (self : Compress) (app : Config C)
    (request : Request) : M unit :=
  let accept_encoding := accept_encoding_of request in
  response ← get_response;
  if not_eligible app response then ret tt
  else
    match select_encoding app accept_encoding with
    | None => ret tt
    | Some encoding => apply_encoding self app encoding
    end.

(** The response once [rewrite_response] is through. *)
Definition rewritten (encoding : Encoding) (content : bytes)
    (r : Response) : Response :=
  let r1 := with_data content r in
  let r2 := with_header "Content-Encoding" (CONTENT_ENCODINGS encoding) r1 in
  let r3 := with_header "Content-Length" (str_of_int (len content)) r2 in
  match merge_vary (headers_get "Vary" (headers r3)) with
  | Some v => with_header "Vary" v r3
  | None => r3
  end.

(** The pipeline goes past both early returns: the response is eligible
    and an encoding is selected. *)
Definition compression_applied (app : Config C) (request : Request)
    (w : World C) : bool :=
  negb (not_eligible app (response w)) &&
  match select_encoding app (accept_encoding_of request) with
  | Some _ => true
  | None => false
  end.

(** The value of the [Vary] header after the merge. *)
Definition merged_vary (vary : option string) : option string :=
  match merge_vary vary with
  | Some v => Some v
  | None => vary
  end.

(** The key under which the pipeline files a response in the cache: the
    answer of the key function of the selected encoding. *)
Definition filed_under (self : Compress) (app : Config C)
    (request : Request) (r : Response) : option string :=
  if not_eligible app r then None
  else
    match select_encoding app (accept_encoding_of request) with
    | Some encoding =>
        match _cache_keys self encoding with
        | Some f =>
            match f (with_direct_passthrough false r) with
            | Return key => Some key
            | Raise _ => None
            end
        | None => None
        end
    | None => None
    end.

(** [m] never changes the response. *)
Definition keeps_response {A : Type} (m : M A) : Prop :=
  forall w r w', m w = (r, w') -> response w' = response w.

(** The world once [direct_passthrough] is switched off. *)
Definition cleared (w : World C) : World C :=
  mkWorld (with_direct_passthrough false (response w)) (_cache w) (calls w).

(** ** [Compress.init_app] and the application *)

(** A function registered with [app.after_request]. *)
Definition Hook : Type := Config C -> Request -> M unit.

Record Flask : Type := mkFlask {
  config : UserConfig C;
  after_request_funcs : list Hook
}.

(** The loop over [defaults]: every option ends up present. *)
Definition apply_defaults (c : UserConfig C) : Config C :=
  mkConfig
    (setdefault (user_COMPRESS_MIMETYPES c) TEXT_TYPES)
    (setdefault (user_COMPRESS_LEVEL c) 6)
    (setdefault (user_COMPRESS_MIN_SIZE c) 500)
    (setdefault (user_ENABLE_GZIP c) true)
    (setdefault (user_ENABLE_BROTLI c) true)
    (setdefault (user_GZIP_COMPRESS_CACHE_KEY c) None)
    (setdefault (user_BROTLI_COMPRESS_CACHE_KEY c) None)
    (setdefault (user_COMPRESS_CACHE_BACKEND c) None)
    (setdefault (user_COMPRESS_REGISTER c) true).

Definition all_present (c : Config C) : UserConfig C :=
  mkUserConfig
    (Some (COMPRESS_MIMETYPES c)) (Some (COMPRESS_LEVEL c))
    (Some (COMPRESS_MIN_SIZE c)) (Some (ENABLE_GZIP c))
    (Some (ENABLE_BROTLI c)) (Some (GZIP_COMPRESS_CACHE_KEY c))
    (Some (BROTLI_COMPRESS_CACHE_KEY c)) (Some (COMPRESS_CACHE_BACKEND c))
    (Some (COMPRESS_REGISTER c)).

(** [app.after_request(f)] *)
Definition Flask_after_request (f : Hook) (app : Flask) : Flask :=
  mkFlask (config app) (after_request_funcs app ++ [f]).

(** Truth value of a set: the empty set is false. *)
Definition set_truthy (s : gset string) : bool :=
  negb (bool_decide (s = ∅)).

(** What [init_app] leaves behind: the fields of [self], the
    application, and the cache object it has built. *)
Record Initialised : Type := mkInitialised {
  init_self : Compress;
  init_app_of : Flask;
  init_cache : option C
}.

(** [init_app(self, app)] (lines 71 to 96) *)
Definition init_app (app : Flask) : Initialised :=
  let cfg := apply_defaults (config app) in
  let app := mkFlask (all_present cfg) (after_request_funcs app) in
  let backend := COMPRESS_CACHE_BACKEND cfg in
  let cache := match backend with Some built => Some built | None => None end in
  let self := mkCompress (GZIP_COMPRESS_CACHE_KEY cfg)
                         (BROTLI_COMPRESS_CACHE_KEY cfg) in
  if COMPRESS_REGISTER cfg && set_truthy (COMPRESS_MIMETYPES cfg)
  then mkInitialised self (Flask_after_request (after_request self) app) cache
  else mkInitialised self app cache.

(** The framework runs the registered functions on the response, the
    last registered first. *)
Fixpoint run_hooks (hs : list Hook) (cfg : Config C) (request : Request)
  : M unit :=
  match hs with
  | [] => ret tt
  | h :: hs' => h cfg request;; run_hooks hs' cfg request
  end.

Definition process_response (app : Flask) (request : Request) : M unit :=
  run_hooks (rev (after_request_funcs app)) (apply_defaults (config app))
            request.

End Pipeline.

Arguments M C A : clear implicits.
Arguments Hook C : clear implicits.
Arguments Flask C : clear implicits.
Arguments Initialised C : clear implicits.

(** ** Stand-ins for running the pipeline

    Two engines that refuse a level outside the range of their library, as
    zlib and Brotli do, and otherwise put a mark in front of the body.
    They compress nothing; they make the pipeline executable. *)

Definition stub_gzip (level : Z) (body : bytes) : Res bytes :=
  if (-1 <=? level) && (level <=? 9)
  then Return (Byte.x1f :: Byte.x8b :: body)
  else Raise (LibraryError "Bad compression level").

Definition stub_brotli (body : bytes) (mode : BrotliMode) (quality : Z)
  : Res bytes :=
  if (0 <=? quality) && (quality <=? 11)
  then Return (Byte.xce :: body)
  else Raise (LibraryError "BrotliEncoderSetParameter failed").

Definition stub_codecs : Codecs :=
  {| GzipFile_write := stub_gzip; brotli_compress := stub_brotli |}.

(** The defaults of [init_app]. *)
Definition default_config : Config DictCache :=
  mkConfig TEXT_TYPES 6 500 true true None None None true.

Definition no_config : UserConfig DictCache :=
  mkUserConfig None None None None None None None None None.

(** A page of 600 bytes. *)
Definition page_body : bytes := repeat Byte.x61 600.

Definition page (hs : Headers) : Response :=
  mkResponse "text/html" 200 (Some 600) hs page_body false.

Definition asking (accept_encoding : string) : Request :=
  mkRequest [("Accept-Encoding", accept_encoding)].

Definition world_of (r : Response) (cache : option DictCache)
  : World DictCache :=
  mkWorld r cache [].

(** The defaults, with the level set for Brotli's best. *)
Definition level_11_config : Config DictCache :=
  mkConfig TEXT_TYPES 11 500 true true None None None true.

(** A style sheet sent as a file: the framework streams it. *)
Definition static_file : Response :=
  mkResponse "text/css" 200 (Some 600) [] page_body true.

(** A cache key function: every response has the key of its path. *)
Definition path_key : KeyFn := fun _ => Return "/large/".

(** ** The class constants as the source writes them

    [BROTLI = 0], [GZIP = 1], and three tuples that are read at
    [encoding]: [CONTENT_ENCODINGS], [self._cache_keys] and
    [self._compress_methods]. *)

Definition Encoding_index (encoding : Encoding) : nat :=
  match encoding with BROTLI => 0 | GZIP => 1 end.

Definition CONTENT_ENCODINGS_tuple : list string := ["brotli"; "gzip"].

Definition _cache_keys_tuple (self : Compress) : list (option KeyFn) :=
  [_brotli_cache_key self; _gzip_cache_key self].

Definition _compress_methods_tuple {C : Type} {backend : CacheBackend C}
    {codecs : Codecs} : list (Config C -> M C bytes) :=
  [_brotli_compress; _gzip_compress].

(** ** Several stores in a row *)

(** [self.set(k, v)] for each pair of the list, first to last. *)
Definition DictCache_set_all (kvs : list (string * bytes))
    (self : DictCache) : DictCache :=
  fold_left (fun c kv => snd (DictCache_set (fst kv) (snd kv) c)) kvs self.

(** The value of the last pair of the list that has the key. *)
Fixpoint last_stored (key : string) (kvs : list (string * bytes))
  : option bytes :=
  match kvs with
  | [] => None
  | (k, v) :: rest =>
      match last_stored key rest with
      | Some v' => Some v'
      | None => if String.eqb k key then Some v else None
      end
  end.

(** ** The call an engine receives *)

(** The call that [self._compress_methods[encoding](app, response)]
    makes. *)
Definition engine_call {C : Type} (encoding : Encoding) (app : Config C)
    (r : Response) : Call :=
  match encoding with
  | BROTLI =>
      BrotliCall (data r)
        (if bool_decide (mimetype r ∈ TEXT_TYPES)
         then MODE_TEXT else MODE_GENERIC) (COMPRESS_LEVEL app)
  | GZIP => GzipCall (COMPRESS_LEVEL app) (data r)
  end.

(** ** The headers the pipeline does not write *)

(** A header name other than [Content-Encoding], [Content-Length] and
    [Vary], in any case. *)
Definition other_header (k : string) : bool :=
  negb (key_eqb "Content-Encoding" k) &&
  negb (key_eqb "Content-Length" k) &&
  negb (key_eqb "Vary" k).

(** The entries of the other headers, in their order. *)
Definition other_headers (h : Headers) : Headers :=
  filter (fun kv => other_header (fst kv) = true) h.

(** * Facts about strings *)

(** [needle] occurs in [hay]: said without the program's search. *)
Definition Occurs (needle hay : string) : Prop :=
  exists pre post : string, hay = (pre ++ needle ++ post)%string.

Lemma str_app_nil_r (s : string) : (s ++ "")%string = s.
Proof. induction s as [|c s IH]; simpl; [reflexivity | now rewrite IH]. Qed.

Lemma str_app_assoc (a b c : string) :
  ((a ++ b) ++ c)%string = (a ++ b ++ c)%string.
Proof. induction a as [|x a IH]; simpl; [reflexivity | now rewrite IH]. Qed.

Lemma str_startswith_spec (p s : string) :
  str_startswith p s = true <-> exists post, s = (p ++ post)%string.
Proof.
  revert s; induction p as [|a p IH]; intros s; simpl.
  - split; [intros _; now exists s | reflexivity].
  - destruct s as [|b s].
    + split; [discriminate | intros [post Hp]; discriminate].
    + rewrite andb_true_iff, Ascii.eqb_eq, IH. split.
      * intros [-> [post ->]]. now exists post.
      * intros [post Hp]. injection Hp as -> ->. split; [reflexivity | now exists post].
Qed.

Lemma str_contains_spec (needle hay : string) :
  str_contains needle hay = true <-> Occurs needle hay.
Proof.
  unfold Occurs. induction hay as [|c hay IH]; simpl.
  - rewrite orb_false_r, str_startswith_spec. split.
    + intros [post Hp]. exists "", post. exact Hp.
    + intros [pre [post Hp]]. destruct pre; [now exists post | discriminate].
  - rewrite orb_true_iff, str_startswith_spec, IH. split.
    + intros [[post Hp] | [pre [post Hp]]].
      * exists "", post. exact Hp.
      * exists (String c pre), post. simpl. now rewrite Hp.
    + intros [pre [post Hp]]. destruct pre as [|x pre]; simpl in Hp.
      * left. now exists post.
      * right. injection Hp as _ Hp. now exists pre, post.
Qed.

Lemma str_lower_app (a b : string) :
  str_lower (a ++ b) = (str_lower a ++ str_lower b)%string.
Proof. induction a as [|x a IH]; simpl; [reflexivity | now rewrite IH]. Qed.

(** * Facts about the header mapping *)

Lemma key_eqb_refl (k : string) : key_eqb k k = true.
Proof. apply String.eqb_refl. Qed.

Lemma key_eqb_true (k k' : string) :
  key_eqb k k' = true <-> str_lower k = str_lower k'.
Proof. apply String.eqb_eq. Qed.

Lemma key_eqb_trans_false (k k1 k2 : string) :
  key_eqb k k1 = false -> key_eqb k1 k2 = true -> key_eqb k k2 = false.
Proof.
  intros H1 H2. apply key_eqb_true in H2.
  unfold key_eqb in *. now rewrite <- H2.
Qed.

Lemma headers_get_set_same (k v : string) (h : Headers) :
  headers_get k (headers_set k v h) = Some v.
Proof.
  induction h as [|[k' v'] h IH]; simpl.
  - now rewrite key_eqb_refl.
  - destruct (key_eqb k k') eqn:E; simpl.
    + now rewrite key_eqb_refl.
    + now rewrite E.
Qed.

Lemma headers_get_drop (k k' : string) (h : Headers) :
  key_eqb k k' = false ->
  headers_get k (filter (fun kv => key_eqb k' (fst kv) = false) h)
  = headers_get k h.
Proof.
  intros Hne. induction h as [|[k2 v2] h IH]; [reflexivity|].
  rewrite filter_cons. simpl. destruct (decide (key_eqb k' k2 = false)) as [E|E].
  - simpl. now rewrite IH.
  - apply not_false_is_true in E.
    rewrite (key_eqb_trans_false k k' k2 Hne E). exact IH.
Qed.

Lemma headers_get_set_other (k k' v : string) (h : Headers) :
  key_eqb k k' = false ->
  headers_get k (headers_set k' v h) = headers_get k h.
Proof.
  intros Hne. induction h as [|[k2 v2] h IH]; simpl.
  - now rewrite Hne.
  - destruct (key_eqb k' k2) eqn:E; simpl.
    + rewrite Hne, (key_eqb_trans_false k k' k2 Hne E).
      now apply headers_get_drop.
    + now rewrite IH.
Qed.

Lemma headers_contains_spec (k : string) (h : Headers) :
  headers_contains k h = true <->
  exists k' v, In (k', v) h /\ str_lower k' = str_lower k.
Proof.
  unfold headers_contains. induction h as [|[k2 v2] h IH]; simpl.
  - split; [discriminate | intros [? [? [[] _]]]].
  - destruct (key_eqb k k2) eqn:E.
    + split; [intros _ | reflexivity].
      exists k2, v2. split; [now left | symmetry; now apply key_eqb_true].
    + rewrite IH. split.
      * intros [k' [v [Hin Hk]]]. exists k', v. split; [now right | exact Hk].
      * intros [k' [v [[Heq | Hin] Hk]]].
        -- injection Heq as -> ->. symmetry in Hk. apply key_eqb_true in Hk. congruence.
        -- now exists k', v.
Qed.

(** * Facts about the pipeline *)

Section PipelineFacts.
Context {C : Type} {backend : CacheBackend C} {codecs : Codecs}.

Ltac unfold_monad :=
  unfold mbind, M_bind, bind, mret, M_ret, ret, raise, lift,
    get_response, get_cache, modify_response, record in *.

Lemma after_request_not_eligible (self : Compress) (app : Config C)
    (request : Request) (w : World C) :
  not_eligible app (response w) = true ->
  after_request self app request w = (Return tt, w).
Proof.
  intros H0. unfold after_request. unfold_monad. now rewrite H0.
Qed.

Lemma after_request_no_encoding (self : Compress) (app : Config C)
    (request : Request) (w : World C) :
  select_encoding app (accept_encoding_of request) = None ->
  after_request self app request w = (Return tt, w).
Proof.
  intros H0. unfold after_request. unfold_monad. rewrite H0.
  now destruct (not_eligible app (response w)).
Qed.

Lemma after_request_selected (self : Compress) (app : Config C)
    (request : Request) (w : World C) (encoding : Encoding) :
  not_eligible app (response w) = false ->
  select_encoding app (accept_encoding_of request) = Some encoding ->
  after_request self app request w = apply_encoding self app encoding w.
Proof.
  intros H0 H1. unfold after_request. unfold_monad. now rewrite H0, H1.
Qed.

(** ** What a computation leaves untouched *)

Lemma keeps_bind {A B : Type} (m : M C A) (k : A -> M C B) :
  keeps_response m -> (forall a, keeps_response (C:=C) (k a)) ->
  keeps_response (C:=C) (m ≫= k).
Proof.
  intros Hm Hk w r w'. unfold_monad.
  destruct (m w) as [[a|e] w1] eqn:E; intros Hr.
  - rewrite (Hk a _ _ _ Hr). exact (Hm _ _ _ E).
  - injection Hr as <- <-. exact (Hm _ _ _ E).
Qed.

Lemma keeps_ret {A : Type} (a : A) : keeps_response (C:=C) (ret a).
Proof. intros w r w'. unfold_monad. now intros [= <- <-]. Qed.

Lemma keeps_raise {A : Type} (e : exn) : keeps_response (C:=C) (@raise C A e).
Proof. intros w r w'. unfold_monad. now intros [= <- <-]. Qed.

Lemma keeps_lift {A : Type} (x : Res A) : keeps_response (C:=C) (lift x).
Proof. intros w r w'. unfold_monad. now intros [= <- <-]. Qed.

Lemma keeps_get_response : keeps_response (C:=C) get_response.
Proof. intros w r w'. unfold_monad. now intros [= <- <-]. Qed.

Lemma keeps_get_cache : keeps_response (C:=C) get_cache.
Proof. intros w r w'. unfold_monad. now intros [= <- <-]. Qed.

Lemma keeps_record (c : Call) : keeps_response (C:=C) (record c).
Proof. intros w r w'. unfold_monad. now intros [= <- <-]. Qed.

Lemma keeps__cache_get (key : string) : keeps_response (C:=C) (_cache_get key).
Proof.
  intros w r w'. unfold _cache_get. destruct (_cache w) as [c|].
  - destruct (cache_get key c). now intros [= <- <-].
  - now intros [= <- <-].
Qed.

Lemma keeps__cache_set (key : string) (value : bytes) :
  keeps_response (C:=C) (_cache_set key value).
Proof.
  intros w r w'. unfold _cache_set. destruct (_cache w) as [c|].
  - destruct (cache_set key value c). now intros [= <- <-].
  - now intros [= <- <-].
Qed.

Lemma keeps_call_key (f : option KeyFn) (r : Response) :
  keeps_response (C:=C) (call_key f r).
Proof. destruct f; [apply keeps_lift | apply keeps_raise]. Qed.

Create HintDb keeps.
Hint Resolve keeps_ret keeps_raise keeps_lift keeps_get_response
  keeps_get_cache keeps_record keeps__cache_get keeps__cache_set
  keeps_call_key : keeps.

Ltac keeps :=
  repeat first
    [ apply keeps_bind; [|intros ?]
    | solve [auto with keeps]
    | match goal with
      | |- keeps_response (match ?x with _ => _ end) => destruct x
      | |- keeps_response (if ?x then _ else _) => destruct x
      end ].

Lemma keeps__compress_methods (encoding : Encoding) (app : Config C) :
  keeps_response (C:=C) (_compress_methods encoding app).
Proof.
  destruct encoding; unfold _compress_methods, _brotli_compress,
    _gzip_compress; keeps.
Qed.

Hint Resolve keeps__compress_methods : keeps.

Lemma compressed_content_response (self : Compress) (app : Config C)
    (encoding : Encoding) :
  keeps_response (C:=C) (compressed_content self app encoding).
Proof. unfold compressed_content, cached_or_compress. keeps. Qed.

(** ** The rewriting of the response *)

Lemma rewrite_response_run (encoding : Encoding) (content : bytes)
    (w : World C) :
  rewrite_response encoding content w
  = (Return tt,
     mkWorld (rewritten encoding content (response w)) (_cache w) (calls w)).
Proof.
  unfold rewrite_response, rewritten. unfold_monad. simpl.
  destruct (merge_vary _); reflexivity.
Qed.

Lemma apply_encoding_run (self : Compress) (app : Config C)
    (encoding : Encoding) (w : World C) :
  apply_encoding self app encoding w
  = match compressed_content self app encoding (cleared w) with
    | (Return content, w1) =>
        (Return tt,
         mkWorld (rewritten encoding content (response w1))
                 (_cache w1) (calls w1))
    | (Raise e, w1) => (Raise e, w1)
    end.
Proof.
  unfold apply_encoding, cleared. unfold_monad.
  destruct (compressed_content _ _ _ _) as [[content|e] w1];
    [apply rewrite_response_run | reflexivity].
Qed.

Lemma rewritten_content_encoding (encoding : Encoding) (content : bytes)
    (r : Response) :
  headers_get "Content-Encoding" (headers (rewritten encoding content r))
  = Some (CONTENT_ENCODINGS encoding).
Proof.
  unfold rewritten. simpl.
  destruct (merge_vary _); simpl.
  - rewrite headers_get_set_other by reflexivity.
    rewrite headers_get_set_other by reflexivity.
    apply headers_get_set_same.
  - rewrite headers_get_set_other by reflexivity.
    apply headers_get_set_same.
Qed.

Lemma rewritten_content_length (encoding : Encoding) (content : bytes)
    (r : Response) :
  headers_get "Content-Length" (headers (rewritten encoding content r))
  = Some (str_of_int (len content)) /\
  content_length (rewritten encoding content r) = Some (len content) /\
  data (rewritten encoding content r) = content.
Proof.
  unfold rewritten. simpl.
  destruct (merge_vary _); simpl; repeat split.
  - rewrite headers_get_set_other by reflexivity.
    apply headers_get_set_same.
  - apply headers_get_set_same.
Qed.

Lemma rewritten_vary (encoding : Encoding) (content : bytes)
    (r : Response) :
  headers_get "Vary" (headers (rewritten encoding content r))
  = match merge_vary (headers_get "Vary" (headers r)) with
    | Some v => Some v
    | None => headers_get "Vary" (headers r)
    end.
Proof.
  unfold rewritten. simpl.
  rewrite !headers_get_set_other by reflexivity.
  destruct (merge_vary _); simpl.
  - apply headers_get_set_same.
  - now rewrite !headers_get_set_other by reflexivity.
Qed.

(** ** The content, with and without a cache *)

Lemma compressed_content_no_cache (self : Compress) (app : Config C)
    (encoding : Encoding) (w : World C) :
  _cache w = None ->
  compressed_content self app encoding w = _compress_methods encoding app w.
Proof.
  intros Hc. unfold compressed_content. unfold_monad. now rewrite Hc.
Qed.

Lemma compressed_content_key_error (self : Compress) (app : Config C)
    (encoding : Encoding) (w : World C) (c : C) (f : KeyFn) (e : exn) :
  _cache w = Some c ->
  _cache_keys self encoding = Some f ->
  f (response w) = Raise e ->
  compressed_content self app encoding w = (Raise e, w).
Proof.
  intros Hc Hk Hf. unfold compressed_content, call_key. unfold_monad.
  now rewrite Hc, Hk, Hf.
Qed.

Lemma compressed_content_get_error (self : Compress) (app : Config C)
    (encoding : Encoding) (w : World C) (c c1 : C) (f : KeyFn)
    (key : string) (e : exn) :
  _cache w = Some c ->
  _cache_keys self encoding = Some f ->
  f (response w) = Return key ->
  cache_get key c = (Raise e, c1) ->
  compressed_content self app encoding w
  = (Raise e, mkWorld (response w) (Some c1) (calls w)).
Proof.
  intros Hc Hk Hf Hg. unfold compressed_content, call_key, _cache_get.
  unfold_monad. now rewrite Hc, Hk, Hf, Hc, Hg.
Qed.

Lemma compressed_content_cached (self : Compress) (app : Config C)
    (encoding : Encoding) (w : World C) (c c1 : C) (f : KeyFn)
    (key : string) (cached : option bytes) :
  _cache w = Some c ->
  _cache_keys self encoding = Some f ->
  f (response w) = Return key ->
  cache_get key c = (Return cached, c1) ->
  compressed_content self app encoding w
  = match cached_or_compress encoding app cached
            (mkWorld (response w) (Some c1) (calls w)) with
    | (Return content, w2) =>
        match cache_set key content c1 with
        | (Return _, c2) =>
            (Return content, mkWorld (response w) (Some c2) (calls w2))
        | (Raise e, c2) =>
            (Raise e, mkWorld (response w) (Some c2) (calls w2))
        end
    | (Raise e, w2) => (Raise e, w2)
    end.
Proof.
  intros Hc Hk Hf Hg.
  unfold compressed_content, call_key, _cache_get, _cache_set.
  unfold_monad. rewrite Hc, Hk, Hf, Hc, Hg.
  destruct (cached_or_compress encoding app cached _)
    as [[content|e] w2] eqn:Hm; [|reflexivity].
  assert (Hw2 : response w2 = response w /\ _cache w2 = Some c1).
  { unfold cached_or_compress in Hm.
    destruct cached as [b|]; [destruct (bytes_truthy b)|].
    - unfold_monad. now injection Hm as _ <-.
    - destruct encoding; injection Hm as _ <-; now split.
    - destruct encoding; injection Hm as _ <-; now split. }
  destruct Hw2 as [Hr2 Hc2]. rewrite Hc2, Hr2.
  now destruct (cache_set key content c1) as [[[]|e] c2].
Qed.

(** ** Eligibility *)

Lemma not_eligible_true_iff (app : Config C) (r : Response) :
  not_eligible app r = true <->
  (mimetype r ∉ COMPRESS_MIMETYPES app
   \/ ~ (200 <= status_code r < 300)
   \/ content_length r = None
   \/ (exists n, content_length r = Some n /\ n < COMPRESS_MIN_SIZE app)
   \/ (exists k v, In (k, v) (headers r) /\
                   str_lower k = "content-encoding")).
Proof.
  unfold not_eligible.
  rewrite !orb_true_iff, !negb_true_iff, bool_decide_eq_false,
    andb_false_iff, Z.leb_gt, Z.ltb_ge, headers_contains_spec.
  assert (Hcl : match content_length r with
                | Some n => n <? COMPRESS_MIN_SIZE app
                | None => true
                end = true <->
                content_length r = None \/
                exists n, content_length r = Some n /\
                          n < COMPRESS_MIN_SIZE app).
  { destruct (content_length r) as [n|].
    - rewrite Z.ltb_lt. split.
      + intros Hn. right. now exists n.
      + intros [Hn | [m [[= <-] Hm]]]; [discriminate | exact Hm].
    - split; [now left | reflexivity]. }
  rewrite Hcl. simpl. intuition lia.
Qed.

(** C3. A response that fails any eligibility test (its MIME type is not
    in [COMPRESS_MIMETYPES], its status is outside 200 to 299, its content
    length is unknown or below [COMPRESS_MIN_SIZE], or it already has a
    [Content-Encoding] header) comes back as it was: body and headers are
    the same, no engine has been called and the cache is as before. *)
Theorem ineligible_response_untouched (self : Compress) (app : Config C)
    (request : Request) (w : World C) :
  (mimetype (response w) ∉ COMPRESS_MIMETYPES app
   \/ ~ (200 <= status_code (response w) < 300)
   \/ content_length (response w) = None
   \/ (exists n, content_length (response w) = Some n /\
                 n < COMPRESS_MIN_SIZE app)
   \/ (exists k v, In (k, v) (headers (response w)) /\
                   str_lower k = "content-encoding")) ->
  after_request self app request w = (Return tt, w).
Proof.
  intros Hfail. apply after_request_not_eligible.
  now apply not_eligible_true_iff.
Qed.

(** ** Selection of the encoding *)

Lemma select_encoding_brotli (app : Config C) (accept : string) :
  select_encoding app accept = Some BROTLI <->
  ENABLE_BROTLI app = true /\ Occurs "brotli" (str_lower accept).
Proof.
  unfold select_encoding. rewrite <- str_contains_spec, <- andb_true_iff.
  destruct (ENABLE_BROTLI app && _); [tauto|].
  destruct (ENABLE_GZIP app && _); split; (discriminate || tauto).
Qed.

Lemma select_encoding_gzip (app : Config C) (accept : string) :
  select_encoding app accept = Some GZIP <->
  ~ (ENABLE_BROTLI app = true /\ Occurs "brotli" (str_lower accept)) /\
  ENABLE_GZIP app = true /\ Occurs "gzip" (str_lower accept).
Proof.
  unfold select_encoding.
  rewrite <- !str_contains_spec, <- !andb_true_iff.
  destruct (ENABLE_BROTLI app && _).
  - split; [discriminate | intros [Hn _]; now destruct Hn].
  - destruct (ENABLE_GZIP app && _); split; try discriminate; try tauto.
    split; [discriminate | reflexivity].
Qed.

Lemma select_encoding_none (app : Config C) (accept : string) :
  select_encoding app accept = None <->
  ~ (ENABLE_BROTLI app = true /\ Occurs "brotli" (str_lower accept)) /\
  ~ (ENABLE_GZIP app = true /\ Occurs "gzip" (str_lower accept)).
Proof.
  unfold select_encoding.
  rewrite <- !str_contains_spec, <- !andb_true_iff.
  destruct (ENABLE_BROTLI app && _).
  - split; [discriminate | intros [Hn _]; now destruct Hn].
  - destruct (ENABLE_GZIP app && _); split; try discriminate; try tauto.
    intros _. split; discriminate.
Qed.

(** C4. For an eligible response the encoding is selected by looking for
    a substring in the lowercased [Accept-Encoding] value (the empty
    string when the header is absent): Brotli when it is enabled and
    "brotli" occurs; otherwise gzip when it is enabled and "gzip" occurs;
    otherwise the response comes back as it was and nothing else
    happens.  Two header values that differ only in the case of their
    letters select the same encoding. *)
Theorem encoding_selected_by_substring (self : Compress) (app : Config C)
    (request : Request) (w : World C) :
  not_eligible app (response w) = false ->
  (headers_get "Accept-Encoding" (request_headers request) = None ->
   accept_encoding_of request = "") /\
  (ENABLE_BROTLI app = true /\
   Occurs "brotli" (str_lower (accept_encoding_of request)) ->
   select_encoding app (accept_encoding_of request) = Some BROTLI /\
   after_request self app request w = apply_encoding self app BROTLI w) /\
  (~ (ENABLE_BROTLI app = true /\
      Occurs "brotli" (str_lower (accept_encoding_of request))) ->
   ENABLE_GZIP app = true /\
   Occurs "gzip" (str_lower (accept_encoding_of request)) ->
   select_encoding app (accept_encoding_of request) = Some GZIP /\
   after_request self app request w = apply_encoding self app GZIP w) /\
  (~ (ENABLE_BROTLI app = true /\
      Occurs "brotli" (str_lower (accept_encoding_of request))) ->
   ~ (ENABLE_GZIP app = true /\
      Occurs "gzip" (str_lower (accept_encoding_of request))) ->
   select_encoding app (accept_encoding_of request) = None /\
   after_request self app request w = (Return tt, w)) /\
  (forall accept,
     str_lower accept = str_lower (accept_encoding_of request) ->
     select_encoding app accept
     = select_encoding app (accept_encoding_of request)).
Proof.
  intros Hel. split; [|split; [|split; [|split]]].
  - unfold accept_encoding_of. now intros ->.
  - intros Hb. apply select_encoding_brotli in Hb.
    split; [exact Hb | now apply after_request_selected].
  - intros Hnb Hg.
    assert (Hs : select_encoding app (accept_encoding_of request)
                 = Some GZIP) by now apply select_encoding_gzip.
    split; [exact Hs | now apply after_request_selected].
  - intros Hnb Hng.
    assert (Hs : select_encoding app (accept_encoding_of request) = None)
      by now apply select_encoding_none.
    split; [exact Hs | now apply after_request_no_encoding].
  - intros accept Hlow. unfold select_encoding. now rewrite Hlow.
Qed.

(** C5, as the code has it.  With both encodings enabled and the
    request header [Accept-Encoding: brotli, gzip], an eligible response
    is handed to Brotli. *)
Theorem brotli_preferred_when_named (self : Compress) (app : Config C)
    (request : Request) (w : World C) :
  not_eligible app (response w) = false ->
  ENABLE_BROTLI app = true ->
  ENABLE_GZIP app = true ->
  headers_get "Accept-Encoding" (request_headers request)
    = Some "brotli, gzip" ->
  select_encoding app (accept_encoding_of request) = Some BROTLI /\
  after_request self app request w = apply_encoding self app BROTLI w.
Proof.
  intros Hel Hb _ Hreq.
  assert (Hs : select_encoding app (accept_encoding_of request)
               = Some BROTLI).
  { unfold accept_encoding_of, select_encoding. now rewrite Hreq, Hb. }
  split; [exact Hs | now apply after_request_selected].
Qed.

(** ** A missing cache key function *)

(** C8. With a cache in place and no key function for the selected
    encoding, the pipeline raises on an eligible response: the call of
    the missing function is a [TypeError].  No engine has been called
    and the cache has not been touched. *)
Theorem missing_cache_key_raises (self : Compress) (app : Config C)
    (request : Request) (w : World C) (c : C) (encoding : Encoding) :
  not_eligible app (response w) = false ->
  select_encoding app (accept_encoding_of request) = Some encoding ->
  _cache w = Some c ->
  _cache_keys self encoding = None ->
  after_request self app request w
  = (Raise (TypeError "'NoneType' object is not callable"), cleared w).
Proof.
  intros Hel Hs Hc Hk.
  rewrite (after_request_selected _ _ _ _ _ Hel Hs), apply_encoding_run.
  unfold compressed_content, call_key, cleared. unfold_monad. simpl.
  now rewrite Hc, Hk.
Qed.

(** ** The level handed to gzip *)

Lemma _gzip_compress_run (app : Config C) (w : World C) :
  _gzip_compress app w
  = (GzipFile_write (COMPRESS_LEVEL app) (data (response w)),
     mkWorld (response w) (_cache w)
       (calls w ++ [GzipCall (COMPRESS_LEVEL app) (data (response w))])).
Proof. reflexivity. Qed.

Lemma _brotli_compress_run (app : Config C) (w : World C) :
  _brotli_compress app w
  = (brotli_compress (data (response w))
       (if bool_decide (mimetype (response w) ∈ TEXT_TYPES)
        then MODE_TEXT else MODE_GENERIC) (COMPRESS_LEVEL app),
     mkWorld (response w) (_cache w)
       (calls w ++
        [BrotliCall (data (response w))
           (if bool_decide (mimetype (response w) ∈ TEXT_TYPES)
            then MODE_TEXT else MODE_GENERIC) (COMPRESS_LEVEL app)])).
Proof. reflexivity. Qed.

(** ** Runs that return *)

Lemma after_request_return_inv (self : Compress) (app : Config C)
    (request : Request) (w w' : World C) :
  compression_applied app request w = true ->
  after_request self app request w = (Return tt, w') ->
  exists encoding content w1,
    select_encoding app (accept_encoding_of request) = Some encoding /\
    compressed_content self app encoding (cleared w)
      = (Return content, w1) /\
    w' = mkWorld
           (rewritten encoding content
              (with_direct_passthrough false (response w)))
           (_cache w1) (calls w1).
Proof.
  unfold compression_applied. rewrite andb_true_iff, negb_true_iff.
  intros [Hel Hsel] Hrun.
  destruct (select_encoding app (accept_encoding_of request))
    as [encoding|] eqn:Hs; [|discriminate].
  rewrite (after_request_selected _ _ _ _ _ Hel Hs), apply_encoding_run
    in Hrun.
  destruct (compressed_content _ _ _ _) as [[content|e1] w1] eqn:Hc;
    [|discriminate].
  exists encoding, content, w1.
  split; [reflexivity | split; [exact Hc|]].
  apply compressed_content_response in Hc. rewrite Hc in Hrun.
  injection Hrun as <-. reflexivity.
Qed.

Lemma after_request_not_applied (self : Compress) (app : Config C)
    (request : Request) (w : World C) :
  compression_applied app request w = false ->
  after_request self app request w = (Return tt, w).
Proof.
  unfold compression_applied. rewrite andb_false_iff, negb_false_iff.
  intros [Hel | Hsel].
  - now apply after_request_not_eligible.
  - apply after_request_no_encoding.
    now destruct (select_encoding app (accept_encoding_of request)).
Qed.

(** ** The [Vary] header *)

Lemma merged_vary_mentions (vary : option string) :
  exists v, merged_vary vary = Some v /\
            Occurs "accept-encoding" (str_lower v).
Proof.
  unfold merged_vary, merge_vary. destruct vary as [v|].
  - destruct (str_truthy v).
    + destruct (str_contains "accept-encoding" (str_lower v)) eqn:E; simpl.
      * exists v. split; [reflexivity | now apply str_contains_spec].
      * exists (v ++ ", Accept-Encoding")%string. split; [reflexivity|].
        rewrite str_lower_app. exists (str_lower v ++ ", ")%string, "".
        simpl. now rewrite str_app_assoc.
    + exists "Accept-Encoding". split; [reflexivity|].
      now apply str_contains_spec.
  - exists "Accept-Encoding". split; [reflexivity|].
    now apply str_contains_spec.
Qed.

Lemma merged_vary_idempotent (vary : option string) :
  merged_vary (merged_vary vary) = merged_vary vary.
Proof.
  destruct (merged_vary_mentions vary) as [v [-> Hv]].
  apply str_contains_spec in Hv.
  unfold merged_vary, merge_vary. rewrite Hv. simpl.
  destruct v; [discriminate | reflexivity].
Qed.

Lemma split_commas_app (cur a b : string) :
  split_commas cur (a ++ String "," b)
  = (split_commas cur a ++ split_commas "" b)%list.
Proof.
  revert cur. induction a as [|x a IH]; intros cur; simpl.
  - reflexivity.
  - destruct (Ascii.eqb x ","); simpl; now rewrite IH.
Qed.

(** What the pipeline writes into [Vary] has [Accept-Encoding] as one of
    its comma-separated tokens. *)
Lemma merge_vary_token (vary : option string) (v : string) :
  merge_vary vary = Some v -> In "Accept-Encoding" (header_tokens v).
Proof.
  unfold merge_vary. destruct vary as [v0|].
  - destruct (str_truthy v0).
    + destruct (negb _); [|discriminate]. intros [= <-].
      unfold header_tokens.
      change (v0 ++ ", Accept-Encoding")%string
        with (v0 ++ String "," " Accept-Encoding")%string.
      rewrite split_commas_app, map_app. apply in_or_app. right.
      now left.
    + intros [= <-]. now left.
  - intros [= <-]. now left.
Qed.

Lemma rewritten_merged_vary (encoding : Encoding) (content : bytes)
    (r : Response) :
  headers_get "Vary" (headers (rewritten encoding content r))
  = merged_vary (headers_get "Vary" (headers r)).
Proof. apply rewritten_vary. Qed.

(** C7. When compression is applied: a [Vary] header that was [Cookie]
    becomes [Cookie, Accept-Encoding], with each of the two tokens once;
    a [Vary] header that mentions accept-encoding in any case stays as it
    is; an absent one becomes [Accept-Encoding].  Merging twice is
    merging once, and the pipeline run again on its own result changes
    nothing. *)
Theorem vary_merge_idempotent (self : Compress) (app : Config C)
    (request : Request) (w w' : World C) :
  compression_applied app request w = true ->
  after_request self app request w = (Return tt, w') ->
  (headers_get "Vary" (headers (response w)) = Some "Cookie" ->
   exists v, headers_get "Vary" (headers (response w')) = Some v /\
             v = "Cookie, Accept-Encoding" /\
             count_token "Cookie" v = 1%nat /\
             count_token "Accept-Encoding" v = 1%nat) /\
  (forall v, headers_get "Vary" (headers (response w)) = Some v ->
             Occurs "accept-encoding" (str_lower v) ->
             headers_get "Vary" (headers (response w')) = Some v) /\
  (headers_get "Vary" (headers (response w)) = None ->
   headers_get "Vary" (headers (response w')) = Some "Accept-Encoding") /\
  headers_get "Vary" (headers (response w'))
    = merged_vary (headers_get "Vary" (headers (response w))) /\
  (forall vary, merged_vary (merged_vary vary) = merged_vary vary) /\
  (forall self' app' request',
     after_request self' app' request' w' = (Return tt, w')).
Proof.
  intros Happ Hrun.
  destruct (after_request_return_inv _ _ _ _ _ Happ Hrun)
    as (encoding & content & w1 & Hs & Hc & ->). simpl.
  rewrite rewritten_merged_vary. simpl.
  split; [|split; [|split; [|split; [|split]]]].
  - intros ->. exists "Cookie, Accept-Encoding". now repeat split.
  - intros v -> Hv. apply str_contains_spec in Hv.
    unfold merged_vary, merge_vary. rewrite Hv. simpl.
    destruct v; [discriminate | reflexivity].
  - now intros ->.
  - reflexivity.
  - apply merged_vary_idempotent.
  - intros self' app' request'. apply after_request_not_eligible.
    unfold not_eligible, headers_contains. simpl.
    rewrite rewritten_content_encoding. apply orb_true_r.
Qed.

(** ** The headers after a run *)

Lemma selected_token_occurs (app : Config C) (accept : string)
    (encoding : Encoding) :
  select_encoding app accept = Some encoding ->
  Occurs (CONTENT_ENCODINGS encoding) (str_lower accept).
Proof.
  destruct encoding; simpl.
  - intros Hs. now apply select_encoding_brotli in Hs.
  - intros Hs. now apply select_encoding_gzip in Hs.
Qed.

(** C2, as the code has it.  After a run that returns: if compression
    was applied, [Content-Encoding] is "brotli" or "gzip", the one that
    occurs in the lowercased [Accept-Encoding] value and was selected,
    [Content-Length] is the length of the new body, and [Vary] mentions
    accept-encoding, as a comma-separated token whenever the header did
    not mention it before; if compression was not applied, nothing has
    changed.  So for a response that came without [Content-Encoding],
    compression was applied exactly when the header is there afterwards,
    and a response that fails the eligibility tests keeps its headers. *)
Theorem headers_after_run (self : Compress) (app : Config C)
    (request : Request) (w w' : World C) :
  after_request self app request w = (Return tt, w') ->
  (compression_applied app request w = true ->
   exists encoding,
     select_encoding app (accept_encoding_of request) = Some encoding /\
     headers_get "Content-Encoding" (headers (response w'))
       = Some (CONTENT_ENCODINGS encoding) /\
     (CONTENT_ENCODINGS encoding = "brotli" \/
      CONTENT_ENCODINGS encoding = "gzip") /\
     Occurs (CONTENT_ENCODINGS encoding)
            (str_lower (accept_encoding_of request)) /\
     headers_get "Content-Length" (headers (response w'))
       = Some (str_of_int (len (data (response w')))) /\
     content_length (response w') = Some (len (data (response w'))) /\
     exists v,
       headers_get "Vary" (headers (response w')) = Some v /\
       Occurs "accept-encoding" (str_lower v) /\
       ((forall v0, headers_get "Vary" (headers (response w)) = Some v0 ->
                    ~ Occurs "accept-encoding" (str_lower v0)) ->
        In "Accept-Encoding" (header_tokens v))) /\
  (compression_applied app request w = false -> w' = w) /\
  (headers_contains "Content-Encoding" (headers (response w)) = false ->
   (compression_applied app request w = true <->
    headers_contains "Content-Encoding" (headers (response w')) = true)) /\
  (not_eligible app (response w) = true ->
   headers (response w') = headers (response w)).
Proof.
  intros Hrun.
  assert (Hnot : compression_applied app request w = false -> w' = w).
  { intros Hn. rewrite (after_request_not_applied _ _ _ _ Hn) in Hrun.
    now injection Hrun. }
  assert (Hce : compression_applied app request w = true ->
                headers_contains "Content-Encoding" (headers (response w'))
                = true).
  { intros Happ.
    destruct (after_request_return_inv _ _ _ _ _ Happ Hrun)
      as (encoding & content & w1 & Hs & Hc & ->). simpl.
    unfold headers_contains. now rewrite rewritten_content_encoding. }
  split; [|split; [exact Hnot|split]].
  - intros Happ.
    destruct (after_request_return_inv _ _ _ _ _ Happ Hrun)
      as (encoding & content & w1 & Hs & Hc & ->). simpl.
    exists encoding.
    destruct (rewritten_content_length encoding content
                (with_direct_passthrough false (response w)))
      as (Hcl & Hlen & Hdata).
    rewrite Hdata.
    split; [exact Hs|]. split; [apply rewritten_content_encoding|].
    split; [destruct encoding; simpl; tauto|].
    split; [exact (selected_token_occurs app _ _ Hs)|].
    split; [exact Hcl|]. split; [exact Hlen|].
    rewrite rewritten_merged_vary. simpl.
    destruct (merged_vary_mentions (headers_get "Vary" (headers (response w))))
      as [v [Hv Hocc]].
    exists v. split; [exact Hv|]. split; [exact Hocc|].
    intros Hprior. unfold merged_vary in Hv.
    destruct (merge_vary (headers_get "Vary" (headers (response w))))
      as [v1|] eqn:Hm.
    + injection Hv as <-. now apply (merge_vary_token _ _ Hm).
    + destruct (Hprior v Hv Hocc).
  - intros Hprior. split; [exact Hce|].
    intros Hafter.
    destruct (compression_applied app request w) eqn:Happ;
      [reflexivity|].
    rewrite (Hnot eq_refl) in Hafter. congruence.
  - intros Hel. rewrite Hnot; [reflexivity|].
    unfold compression_applied. now rewrite Hel.
Qed.

(** ** The cache *)

(** Two runs in a row that file their responses under the same key. *)
Lemma two_runs_same_key (self : Compress) (app : Config C)
    (request1 request2 : Request) (w0 w1 w2 : World C) (r2 : Response)
    (key : string) :
  (forall level body out,
     GzipFile_write level body = Return out -> out <> []) ->
  (forall body mode quality out,
     brotli_compress body mode quality = Return out -> out <> []) ->
  (forall k value c c',
     cache_set k value c = (Return tt, c') ->
     forall answer c'',
       cache_get k c' = (Return answer, c'') -> answer = Some value) ->
  _cache w0 <> None ->
  filed_under self app request1 (response w0) = Some key ->
  after_request self app request1 w0 = (Return tt, w1) ->
  filed_under self app request2 r2 = Some key ->
  after_request self app request2 (mkWorld r2 (_cache w1) (calls w1))
    = (Return tt, w2) ->
  data (response w2) = data (response w1) /\
  calls w2 = calls w1.
Proof.
  intros Hgz Hbr Hlaw Hcache Hkey1 Hrun1 Hkey2 Hrun2.
  (* the first run *)
  unfold filed_under in Hkey1.
  destruct (not_eligible app (response w0)) eqn:Hel1; [discriminate|].
  destruct (select_encoding app (accept_encoding_of request1))
    as [enc1|] eqn:Hs1; [|discriminate].
  destruct (_cache_keys self enc1) as [f1|] eqn:Hk1; [|discriminate].
  destruct (f1 _) as [k1|] eqn:Hf1; [|discriminate].
  injection Hkey1 as ->.
  destruct (_cache w0) as [c0|] eqn:Hc0; [clear Hcache | now destruct Hcache].
  rewrite (after_request_selected _ _ _ _ _ Hel1 Hs1), apply_encoding_run
    in Hrun1.
  destruct (cache_get key c0) as [[cached1|e] c1] eqn:Hg1.
  2:{ rewrite (compressed_content_get_error self app enc1 (cleared w0) c0 c1 f1
            key e)
        in Hrun1 by assumption. discriminate. }
  rewrite (compressed_content_cached self app enc1 (cleared w0) c0 c1 f1 key
             cached1)
    in Hrun1 by assumption.
  destruct (cached_or_compress enc1 app cached1 _)
    as [[content|e] wm] eqn:Hm1; [|discriminate].
  assert (Hne : bytes_truthy content = true).
  { unfold cached_or_compress in Hm1.
    assert (Heng : forall w wm,
              _compress_methods enc1 app w = (Return content, wm) ->
              bytes_truthy content = true).
    { intros w wm' Hrun. destruct enc1; simpl in Hrun.
      - rewrite _brotli_compress_run in Hrun. injection Hrun as Hout _.
        apply Hbr in Hout. now destruct content.
      - rewrite _gzip_compress_run in Hrun. injection Hrun as Hout _.
        apply Hgz in Hout. now destruct content. }
    destruct cached1 as [b|]; [destruct (bytes_truthy b) eqn:Hb|];
      try (now apply Heng in Hm1).
    unfold ret in Hm1. now injection Hm1 as <- _. }
  destruct (cache_set key content c1) as [[[]|e] c2] eqn:Hset1;
    [|discriminate].
  injection Hrun1 as <-. simpl in *.
  (* the second run *)
  unfold filed_under in Hkey2.
  destruct (not_eligible app r2) eqn:Hel2; [discriminate|].
  destruct (select_encoding app (accept_encoding_of request2))
    as [enc2|] eqn:Hs2; [|discriminate].
  destruct (_cache_keys self enc2) as [f2|] eqn:Hk2; [|discriminate].
  destruct (f2 _) as [k2|] eqn:Hf2; [|discriminate].
  injection Hkey2 as ->.
  rewrite (after_request_selected self app request2
             (mkWorld r2 (Some c2) (calls wm)) enc2 Hel2 Hs2),
    apply_encoding_run in Hrun2.
  destruct (cache_get key c2) as [[cached2|e] c3] eqn:Hg2.
  2:{ rewrite (compressed_content_get_error self app enc2
            (cleared (mkWorld r2 (Some c2) (calls wm))) c2 c3 f2 key e)
        in Hrun2 by (assumption || reflexivity). discriminate. }
  rewrite (compressed_content_cached self app enc2
             (cleared (mkWorld r2 (Some c2) (calls wm))) c2 c3 f2 key
             cached2)
    in Hrun2 by (assumption || reflexivity).
  rewrite (Hlaw _ _ _ _ Hset1 _ _ Hg2) in Hrun2.
  unfold cached_or_compress in Hrun2. rewrite Hne in Hrun2.
  unfold ret in Hrun2. simpl in Hrun2.
  destruct (cache_set key content c3) as [[[]|e] c4]; [|discriminate].
  injection Hrun2 as <-. simpl.
  destruct (rewritten_content_length enc1 content
              (with_direct_passthrough false (response w0)))
    as (_ & _ & ->).
  destruct (rewritten_content_length enc2 content
              (with_direct_passthrough false r2)) as (_ & _ & ->).
  split; reflexivity.
Qed.

(** C6. With a cache that answers a lookup with what was last stored
    under the key, and engines whose output is never empty: when two
    runs in a row file their responses under the same key and both
    return, the second body is the first body, byte for byte, and the
    second run calls no engine.  On a hit the cached bytes are the
    content and no engine is called; on a miss the engine's output is the
    content and it is stored under the key. *)
Theorem second_run_served_from_cache (self : Compress) (app : Config C) :
  (forall level body out,
     GzipFile_write level body = Return out -> out <> []) ->
  (forall body mode quality out,
     brotli_compress body mode quality = Return out -> out <> []) ->
  (forall k value c c',
     cache_set k value c = (Return tt, c') ->
     forall answer c'',
       cache_get k c' = (Return answer, c'') -> answer = Some value) ->
  (forall request1 request2 w0 w1 w2 r2 key,
     _cache w0 <> None ->
     filed_under self app request1 (response w0) = Some key ->
     after_request self app request1 w0 = (Return tt, w1) ->
     filed_under self app request2 r2 = Some key ->
     after_request self app request2 (mkWorld r2 (_cache w1) (calls w1))
       = (Return tt, w2) ->
     data (response w2) = data (response w1) /\
     calls w2 = calls w1) /\
  (* a hit *)
  (forall encoding w c c1 f key b,
     _cache w = Some c ->
     _cache_keys self encoding = Some f ->
     f (response w) = Return key ->
     cache_get key c = (Return (Some b), c1) ->
     b <> [] ->
     compressed_content self app encoding w
     = match cache_set key b c1 with
       | (Return _, c2) =>
           (Return b, mkWorld (response w) (Some c2) (calls w))
       | (Raise e, c2) =>
           (Raise e, mkWorld (response w) (Some c2) (calls w))
       end) /\
  (* a miss *)
  (forall encoding w c c1 f key,
     _cache w = Some c ->
     _cache_keys self encoding = Some f ->
     f (response w) = Return key ->
     cache_get key c = (Return None, c1) ->
     compressed_content self app encoding w
     = match _compress_methods encoding app
               (mkWorld (response w) (Some c1) (calls w)) with
       | (Return out, w2) =>
           match cache_set key out c1 with
           | (Return _, c2) =>
               (Return out, mkWorld (response w) (Some c2) (calls w2))
           | (Raise e, c2) =>
               (Raise e, mkWorld (response w) (Some c2) (calls w2))
           end
       | (Raise e, w2) => (Raise e, w2)
       end).
Proof.
  intros Hgz Hbr Hlaw. split; [|split].
  - intros request1 request2 w0 w1 w2 r2 key.
    now apply two_runs_same_key.
  - intros encoding w c c1 f key b Hc Hk Hf Hg Hb.
    rewrite (compressed_content_cached self app encoding w c c1 f key
               (Some b)) by assumption.
    unfold cached_or_compress. destruct b; [now destruct Hb|]. reflexivity.
  - intros encoding w c c1 f key Hc Hk Hf Hg.
    now rewrite (compressed_content_cached self app encoding w c c1 f key
                   None) by assumption.
Qed.

(** ** Failures *)

Lemma after_request_raise_inv (self : Compress) (app : Config C)
    (request : Request) (w w' : World C) (e : exn) :
  after_request self app request w = (Raise e, w') ->
  not_eligible app (response w) = false /\
  exists encoding,
    select_encoding app (accept_encoding_of request) = Some encoding /\
    compressed_content self app encoding (cleared w) = (Raise e, w').
Proof.
  intros Hrun.
  destruct (not_eligible app (response w)) eqn:Hel.
  { now rewrite after_request_not_eligible in Hrun. }
  split; [reflexivity|].
  destruct (select_encoding app (accept_encoding_of request))
    as [encoding|] eqn:Hs.
  2:{ now rewrite after_request_no_encoding in Hrun. }
  exists encoding. split; [reflexivity|].
  rewrite (after_request_selected _ _ _ _ _ Hel Hs), apply_encoding_run
    in Hrun.
  destruct (compressed_content _ _ _ _) as [[content|e1] w1];
    [discriminate | now injection Hrun as -> ->].
Qed.

Lemma compressed_content_raise_propagates (self : Compress)
    (app : Config C) (request : Request) (w w1 : World C)
    (encoding : Encoding) (e : exn) :
  not_eligible app (response w) = false ->
  select_encoding app (accept_encoding_of request) = Some encoding ->
  compressed_content self app encoding (cleared w) = (Raise e, w1) ->
  after_request self app request w = (Raise e, w1).
Proof.
  intros Hel Hs Hc.
  now rewrite (after_request_selected _ _ _ _ _ Hel Hs),
    apply_encoding_run, Hc.
Qed.

(** C9, as the code has it.  An error of an engine, of the key function
    or of a cache operation comes out of the pipeline as it is.  At that
    point the body, the headers, the status, the MIME type and the
    content length of the response are the ones it came with; the switch
    [direct_passthrough] is already off. *)
Theorem failure_leaves_body_and_headers (self : Compress) (app : Config C)
    (request : Request) (w : World C) :
  (forall e w', after_request self app request w = (Raise e, w') ->
     response w' = with_direct_passthrough false (response w)) /\
  (forall encoding,
     not_eligible app (response w) = false ->
     select_encoding app (accept_encoding_of request) = Some encoding ->
     (* no cache: the engine fails *)
     (forall e w1,
        _cache w = None ->
        _compress_methods encoding app (cleared w) = (Raise e, w1) ->
        after_request self app request w = (Raise e, w1)) /\
     (* the key function fails *)
     (forall c f e,
        _cache w = Some c ->
        _cache_keys self encoding = Some f ->
        f (response (cleared w)) = Raise e ->
        after_request self app request w = (Raise e, cleared w)) /\
     (* the lookup fails *)
     (forall c f key e c1,
        _cache w = Some c ->
        _cache_keys self encoding = Some f ->
        f (response (cleared w)) = Return key ->
        cache_get key c = (Raise e, c1) ->
        fst (after_request self app request w) = Raise e) /\
     (* the lookup answers, the engine fails *)
     (forall c f key cached c1 e w1,
        _cache w = Some c ->
        _cache_keys self encoding = Some f ->
        f (response (cleared w)) = Return key ->
        cache_get key c = (Return cached, c1) ->
        cached_or_compress encoding app cached
          (mkWorld (response (cleared w)) (Some c1) (calls w))
        = (Raise e, w1) ->
        after_request self app request w = (Raise e, w1)) /\
     (* the store fails *)
     (forall c f key cached c1 content w1 e c2,
        _cache w = Some c ->
        _cache_keys self encoding = Some f ->
        f (response (cleared w)) = Return key ->
        cache_get key c = (Return cached, c1) ->
        cached_or_compress encoding app cached
          (mkWorld (response (cleared w)) (Some c1) (calls w))
        = (Return content, w1) ->
        cache_set key content c1 = (Raise e, c2) ->
        fst (after_request self app request w) = Raise e)).
Proof.
  split.
  - intros e w' Hrun.
    apply after_request_raise_inv in Hrun as (_ & encoding & _ & Hc).
    now apply compressed_content_response in Hc.
  - intros encoding Hel Hs. repeat split.
    + intros e w1 Hc Hm.
      apply (compressed_content_raise_propagates _ _ _ _ _ encoding);
        [assumption..|].
      now rewrite compressed_content_no_cache.
    + intros c f e Hc Hk Hf.
      apply (compressed_content_raise_propagates _ _ _ _ _ encoding);
        [assumption..|].
      now apply (compressed_content_key_error _ _ _ _ c f).
    + intros c f key e c1 Hc Hk Hf Hg.
      erewrite (compressed_content_raise_propagates _ _ _ _ _ encoding);
        [reflexivity | assumption.. |].
      now apply (compressed_content_get_error _ _ _ _ c c1 f key).
    + intros c f key cached c1 e w1 Hc Hk Hf Hg Hm.
      apply (compressed_content_raise_propagates _ _ _ _ _ encoding);
        [assumption..|].
      rewrite (compressed_content_cached _ _ _ _ c c1 f key cached)
        by assumption.
      simpl in *. now rewrite Hm.
    + intros c f key cached c1 content w1 e c2 Hc Hk Hf Hg Hm Hset.
      erewrite (compressed_content_raise_propagates _ _ _ _ _ encoding);
        [reflexivity | assumption.. |].
      rewrite (compressed_content_cached _ _ _ _ c c1 f key cached)
        by assumption.
      simpl in *. rewrite Hm, Hset. reflexivity.
Qed.

(** ** Registration of the hook *)

Lemma apply_defaults_all_present (cfg : Config C) :
  apply_defaults (all_present cfg) = cfg.
Proof. now destruct cfg. Qed.

(** C10. [init_app] registers the hook exactly when, after the defaults
    are in, [COMPRESS_REGISTER] is true and [COMPRESS_MIMETYPES] is not
    empty.  With an empty set of MIME types the list of registered
    functions stays as it was, also when [COMPRESS_REGISTER] is true, so
    the application treats every response as before. *)
Theorem hook_needs_mimetypes (app : Flask C) :
  (COMPRESS_REGISTER (apply_defaults (config app)) = true ->
   COMPRESS_MIMETYPES (apply_defaults (config app)) <> ∅ ->
   after_request_funcs (init_app_of (init_app app))
   = (after_request_funcs app
      ++ [after_request (init_self (init_app app))])%list) /\
  (COMPRESS_MIMETYPES (apply_defaults (config app)) = ∅ ->
   after_request_funcs (init_app_of (init_app app))
   = after_request_funcs app /\
   forall request w,
     process_response (init_app_of (init_app app)) request w
     = process_response app request w) /\
  (COMPRESS_REGISTER (apply_defaults (config app)) = false ->
   after_request_funcs (init_app_of (init_app app))
   = after_request_funcs app).
Proof.
  unfold init_app, set_truthy. split; [|split].
  - intros Hr Hm. rewrite Hr. simpl.
    rewrite bool_decide_eq_false_2 by exact Hm. reflexivity.
  - intros Hm. rewrite Hm, andb_false_r. simpl. split; [reflexivity|].
    intros request w. unfold process_response. simpl.
    now rewrite apply_defaults_all_present.
  - now intros ->.
Qed.

End PipelineFacts.

(** * The pipeline on concrete responses *)

(** An application that sets nothing gets the documented defaults. *)
Lemma defaults_of_empty_config :
  apply_defaults no_config = default_config.
Proof. reflexivity. Qed.

#[local] Existing Instance stub_codecs.

Lemma stub_gzip_nonempty (level : Z) (body out : bytes) :
  stub_gzip level body = Return out -> out <> [].
Proof.
  unfold stub_gzip. destruct (_ && _); [|discriminate].
  intros [= <-]. discriminate.
Qed.

Lemma stub_brotli_nonempty (body : bytes) (mode : BrotliMode) (quality : Z)
    (out : bytes) :
  stub_brotli body mode quality = Return out -> out <> [].
Proof.
  unfold stub_brotli. destruct (_ && _); [|discriminate].
  intros [= <-]. discriminate.
Qed.

(** The dictionary answers a lookup with what was last stored. *)
Lemma DictCache_get_after_set (k : string) (value : bytes)
    (c c' : DictCache) :
  cache_set k value c = (Return tt, c') ->
  forall answer c'', cache_get k c' = (Return answer, c'') ->
                     answer = Some value.
Proof.
  simpl. unfold DictCache_set, DictCache_get. intros [= <-] answer c''.
  simpl. rewrite lookup_insert_eq. now intros [= <- _].
Qed.

Lemma not_Occurs (needle hay : string) :
  str_contains needle hay = false -> ~ Occurs needle hay.
Proof. intros Hf Ho. apply str_contains_spec in Ho. congruence. Qed.

(** C1.  At [COMPRESS_LEVEL = 11] the gzip engine is called with level 11,
    whatever the engines answer, while the capped level is 9. *)
Theorem gzip_level_not_capped (codecs : Codecs) :
  calls (snd (after_request (mkCompress None None) level_11_config
                (asking "gzip") (world_of (page []) None)))
  = [GzipCall 11 page_body] /\
  Z.min Z_BEST_COMPRESSION (COMPRESS_LEVEL level_11_config) = 9.
Proof.
  split; [|reflexivity].
  rewrite (after_request_selected _ _ _ _ GZIP) by reflexivity.
  rewrite apply_encoding_run, compressed_content_no_cache by reflexivity.
  unfold _compress_methods. rewrite _gzip_compress_run.
  now destruct (GzipFile_write _ _).
Qed.

(** C2 fails in both directions.  A response whose [Vary] is
    [X-Accept-Encoding-Hint] is compressed and keeps that header, which has
    no token [Accept-Encoding]; a response that arrives with
    [Content-Encoding: gzip], the matching [Content-Length] and
    [Vary: Accept-Encoding] shows all the headers although nothing was
    compressed. *)
Lemma headers_do_not_tell_compression :
  (let w := world_of (page [("Vary", "X-Accept-Encoding-Hint")]) None in
   let run := after_request (mkCompress None None) default_config
                (asking "gzip") w in
   fst run = Return tt /\
   compression_applied default_config (asking "gzip") w = true /\
   calls (snd run) = [GzipCall 6 page_body] /\
   headers_get "Content-Encoding" (headers (response (snd run)))
     = Some "gzip" /\
   headers_get "Vary" (headers (response (snd run)))
     = Some "X-Accept-Encoding-Hint" /\
   header_tokens "X-Accept-Encoding-Hint" = ["X-Accept-Encoding-Hint"] /\
   ~ In "Accept-Encoding" (header_tokens "X-Accept-Encoding-Hint"))
  /\
  (let r := page [("Content-Encoding", "gzip"); ("Content-Length", "600");
                  ("Vary", "Accept-Encoding")] in
   let w := world_of r None in
   let run := after_request (mkCompress None None) default_config
                (asking "gzip") w in
   run = (Return tt, w) /\
   compression_applied default_config (asking "gzip") w = false /\
   calls (snd run) = [] /\
   headers_get "Content-Encoding" (headers (response (snd run)))
     = Some "gzip" /\
   Occurs "gzip" (str_lower (accept_encoding_of (asking "gzip"))) /\
   headers_get "Content-Length" (headers (response (snd run)))
     = Some (str_of_int (len (data (response (snd run))))) /\
   In "Accept-Encoding" (header_tokens "Accept-Encoding") /\
   headers_get "Vary" (headers (response (snd run)))
     = Some "Accept-Encoding").
Proof.
  split.
  - repeat split; try (vm_compute; reflexivity).
    vm_compute. intros [Hf | []]. discriminate.
  - repeat split; try (vm_compute; reflexivity).
    + apply str_contains_spec. reflexivity.
    + now left.
Qed.

(** C5 fails: with both encodings enabled, [Accept-Encoding: br, gzip]
    selects gzip. *)
Lemma br_gzip_selects_gzip :
  let w := world_of (page []) None in
  let run := after_request (mkCompress None None) default_config
               (asking "br, gzip") w in
  ENABLE_BROTLI default_config = true /\
  ENABLE_GZIP default_config = true /\
  not_eligible default_config (response w) = false /\
  select_encoding default_config (accept_encoding_of (asking "br, gzip"))
    = Some GZIP /\
  calls (snd run) = [GzipCall 6 page_body] /\
  headers_get "Content-Encoding" (headers (response (snd run)))
    = Some "gzip".
Proof. repeat split; vm_compute; reflexivity. Qed.

(** C9 fails: a streamed file whose compression is refused comes out of
    the failed run with [direct_passthrough] switched off. *)
Lemma failed_run_clears_passthrough :
  let w := world_of static_file None in
  let run := after_request (mkCompress None None) level_11_config
               (asking "gzip") w in
  fst run = Raise (LibraryError "Bad compression level") /\
  direct_passthrough (response w) = true /\
  direct_passthrough (response (snd run)) = false /\
  response (snd run) <> response w.
Proof.
  repeat split; try (vm_compute; reflexivity).
  vm_compute. discriminate.
Qed.

(** ** The theorems at work *)

(** A page that already has [Content-Encoding] comes back as it was. *)
Lemma ineligible_response_untouched_witness :
  let w := world_of (page [("content-encoding", "gzip")]) None in
  after_request (mkCompress None None) default_config (asking "gzip") w
  = (Return tt, w).
Proof.
  apply ineligible_response_untouched.
  right; right; right; right. exists "content-encoding", "gzip".
  split; [now left | reflexivity].
Defined.

(** [Accept-Encoding: GZIP, deflate] selects gzip. *)
Lemma encoding_selected_by_substring_witness :
  select_encoding default_config (accept_encoding_of (asking "GZIP, deflate"))
  = Some GZIP.
Proof.
  refine (proj1 (proj1 (proj2 (proj2
    (encoding_selected_by_substring (mkCompress None None) default_config
       (asking "GZIP, deflate") (world_of (page []) None) eq_refl))) _ _)).
  - intros [_ Hb]. revert Hb. apply not_Occurs. reflexivity.
  - split; [reflexivity | apply str_contains_spec; reflexivity].
Defined.

(** [Accept-Encoding: brotli, gzip] hands the page to Brotli. *)
Lemma brotli_preferred_when_named_witness :
  let w := world_of (page []) None in
  select_encoding default_config (accept_encoding_of (asking "brotli, gzip"))
  = Some BROTLI /\
  after_request (mkCompress None None) default_config
    (asking "brotli, gzip") w
  = apply_encoding (mkCompress None None) default_config BROTLI w.
Proof.
  apply brotli_preferred_when_named; reflexivity.
Defined.

(** A cache without key functions: the run raises. *)
Lemma missing_cache_key_raises_witness :
  let w := world_of (page []) (Some DictCache_init) in
  after_request (mkCompress None None) default_config (asking "gzip") w
  = (Raise (TypeError "'NoneType' object is not callable"), cleared w).
Proof.
  apply (missing_cache_key_raises _ _ _ _ DictCache_init GZIP); reflexivity.
Defined.

(** A page with [Vary: Cookie], compressed. *)
Lemma vary_merge_idempotent_witness :
  let w := world_of (page [("Vary", "Cookie")]) None in
  let w' := snd (after_request (mkCompress None None) default_config
                   (asking "gzip") w) in
  exists v, headers_get "Vary" (headers (response w')) = Some v /\
            v = "Cookie, Accept-Encoding" /\
            count_token "Cookie" v = 1%nat /\
            count_token "Accept-Encoding" v = 1%nat.
Proof.
  intros w w'.
  refine (proj1 (vary_merge_idempotent (mkCompress None None) default_config
                   (asking "gzip") w w' eq_refl _) eq_refl).
  vm_compute. reflexivity.
Defined.

(** The same page: the headers after the run. *)
Lemma headers_after_run_witness :
  let w := world_of (page [("Vary", "Cookie")]) None in
  let w' := snd (after_request (mkCompress None None) default_config
                   (asking "gzip") w) in
  compression_applied default_config (asking "gzip") w = true <->
  headers_contains "Content-Encoding" (headers (response w')) = true.
Proof.
  intros w w'.
  refine (proj1 (proj2 (proj2 (headers_after_run (mkCompress None None)
            default_config (asking "gzip") w w' _))) eq_refl).
  vm_compute. reflexivity.
Defined.

(** A streamed file that gzip refuses at level 11. *)
Lemma failure_leaves_body_and_headers_witness :
  let w := world_of static_file None in
  let w' := snd (after_request (mkCompress None None) level_11_config
                   (asking "gzip") w) in
  response w' = with_direct_passthrough false (response w).
Proof.
  intros w w'.
  refine (proj1 (failure_leaves_body_and_headers (mkCompress None None)
                   level_11_config (asking "gzip") w)
            (LibraryError "Bad compression level") w' _).
  vm_compute. reflexivity.
Defined.

(** An application that asks for registration with no MIME type. *)
Lemma hook_needs_mimetypes_witness :
  let app := mkFlask
               (mkUserConfig (Some ∅) None None None None None None None
                             (Some true)) [] in
  after_request_funcs (init_app_of (init_app (codecs := stub_codecs) app))
  = [].
Proof.
  intros app.
  refine (proj1 (proj1 (proj2 (hook_needs_mimetypes app)) eq_refl)).
Defined.

(** Two requests for the same page, with the dictionary as cache. *)
Lemma second_run_served_from_cache_witness :
  let self := mkCompress (Some path_key) (Some path_key) in
  let w0 := world_of (page []) (Some DictCache_init) in
  let w1 := snd (after_request self default_config (asking "gzip") w0) in
  let w2 := snd (after_request self default_config (asking "gzip")
                   (mkWorld (page []) (_cache w1) (calls w1))) in
  data (response w2) = data (response w1) /\ calls w2 = calls w1.
Proof.
  intros self w0 w1 w2.
  apply (proj1 (second_run_served_from_cache (codecs := stub_codecs)
                  self default_config
                  stub_gzip_nonempty stub_brotli_nonempty
                  DictCache_get_after_set)
           (asking "gzip") (asking "gzip") w0 w1 w2 (page []) "/large/").
  - discriminate.
  - reflexivity.
  - assert (Hfst : fst (after_request self default_config (asking "gzip") w0)
                   = Return tt) by (vm_compute; reflexivity).
    unfold w1.
    destruct (after_request self default_config (asking "gzip") w0);
      simpl in *. now rewrite Hfst.
  - reflexivity.
  - assert (Hfst : fst (after_request self default_config (asking "gzip")
                          (mkWorld (page []) (_cache w1) (calls w1)))
                   = Return tt) by (vm_compute; reflexivity).
    unfold w2.
    destruct (after_request self default_config (asking "gzip")
                (mkWorld (page []) (_cache w1) (calls w1)));
      simpl in *. now rewrite Hfst.
Defined.

(** * More of the module *)

(** ** The dictionary cache *)

Lemma DictCache_set_all_snoc (kvs : list (string * bytes)) (k : string)
    (v : bytes) (c : DictCache) :
  DictCache_set_all (kvs ++ [(k, v)]) c
  = snd (DictCache_set k v (DictCache_set_all kvs c)).
Proof. unfold DictCache_set_all. now rewrite fold_left_app. Qed.

Lemma last_stored_snoc (key k : string) (v : bytes)
    (kvs : list (string * bytes)) :
  last_stored key (kvs ++ [(k, v)])
  = if String.eqb k key then Some v else last_stored key kvs.
Proof.
  induction kvs as [|[k0 v0] kvs IH]; simpl.
  - reflexivity.
  - rewrite IH. destruct (String.eqb k key); [reflexivity|].
    now destruct (last_stored key kvs).
Qed.

(** [DictCache]: a lookup never raises and leaves the cache as it is; a
    key that was never stored answers [None]; after any number of stores
    a lookup answers the value stored last under the key, and a key that
    none of them stored keeps what it had.  Nothing is ever dropped. *)
Theorem DictCache_last_write_wins (kvs : list (string * bytes))
    (key : string) (c : DictCache) :
  DictCache_get key (DictCache_set_all kvs c)
  = (Return (match last_stored key kvs with
             | Some v => Some v
             | None => cache_data c !! key
             end),
     DictCache_set_all kvs c) /\
  DictCache_get key DictCache_init = (Return None, DictCache_init) /\
  (forall k v, fst (DictCache_set k v c) = Return tt).
Proof.
  split; [|split; [reflexivity | reflexivity]].
  unfold DictCache_get. f_equal. f_equal.
  induction kvs as [|[k v] kvs IH] using rev_ind.
  - reflexivity.
  - rewrite DictCache_set_all_snoc, last_stored_snoc. simpl.
    destruct (String.eqb k key) eqn:E.
    + apply String.eqb_eq in E as ->. apply lookup_insert_eq.
    + apply String.eqb_neq in E. rewrite lookup_insert_ne by exact E.
      exact IH.
Qed.

(** ** The constants *)

(** The tuples are read inside their bounds and in the same order: at
    [BROTLI = 0] stand "brotli", the Brotli key function and
    [_brotli_compress], at [GZIP = 1] "gzip", the gzip key function and
    [_gzip_compress]; each tuple has [max(GZIP, BROTLI) + 1] entries. *)
Theorem tuples_agree_on_encoding {C : Type} {backend : CacheBackend C}
    {codecs : Codecs} (self : Compress) (encoding : Encoding) :
  CONTENT_ENCODINGS_tuple !! Encoding_index encoding
    = Some (CONTENT_ENCODINGS encoding) /\
  _cache_keys_tuple self !! Encoding_index encoding
    = Some (_cache_keys self encoding) /\
  _compress_methods_tuple (C := C) !! Encoding_index encoding
    = Some (_compress_methods encoding) /\
  length CONTENT_ENCODINGS_tuple
    = S (Nat.max (Encoding_index GZIP) (Encoding_index BROTLI)) /\
  (forall i, (i < length CONTENT_ENCODINGS_tuple)%nat ->
             exists e, Encoding_index e = i) /\
  (forall e e', Encoding_index e = Encoding_index e' -> e = e').
Proof.
  repeat split.
  - now destruct encoding.
  - now destruct encoding.
  - now destruct encoding.
  - intros i Hi. simpl in Hi.
    destruct i as [|[|i]]; [now exists BROTLI | now exists GZIP | lia].
  - intros [] []; simpl; congruence.
Qed.

Ltac run_monad :=
  unfold mbind, M_bind, bind, mret, M_ret, ret, raise, lift,
    get_response, get_cache, modify_response, record in *.

Lemma other_headers_set (k v : string) (h : Headers) :
  other_header k = false ->
  (forall k', other_header k' = true -> key_eqb k k' = false) ->
  other_headers (headers_set k v h) = other_headers h.
Proof.
  intros Hk Hother. unfold other_headers.
  induction h as [|[k1 v1] h IH]; simpl.
  - rewrite filter_cons. simpl. now rewrite decide_False by congruence.
  - destruct (key_eqb k k1) eqn:E.
    + rewrite !filter_cons. simpl.
      rewrite decide_False by congruence.
      rewrite (decide_False (P := other_header k1 = true)).
      2:{ intros Hk1. apply Hother in Hk1. congruence. }
      clear IH. induction h as [|[k2 v2] h IH]; [reflexivity|].
      rewrite !filter_cons. simpl.
      destruct (decide (key_eqb k k2 = false)) as [E2|E2].
      * rewrite filter_cons. simpl. now rewrite IH.
      * rewrite (decide_False (P := other_header k2 = true)); [exact IH|].
        intros Hk2. apply Hother in Hk2. congruence.
    + rewrite !filter_cons. simpl. now rewrite IH.
Qed.

Lemma other_headers_rewritten (encoding : Encoding) (content : bytes)
    (r : Response) :
  other_headers (headers (rewritten encoding content r))
  = other_headers (headers r).
Proof.
  assert (Hce : forall k', other_header k' = true ->
                           key_eqb "Content-Encoding" k' = false).
  { intros k'. unfold other_header.
    rewrite !andb_true_iff, !negb_true_iff. tauto. }
  assert (Hcl : forall k', other_header k' = true ->
                           key_eqb "Content-Length" k' = false).
  { intros k'. unfold other_header.
    rewrite !andb_true_iff, !negb_true_iff. tauto. }
  assert (Hv : forall k', other_header k' = true ->
                          key_eqb "Vary" k' = false).
  { intros k'. unfold other_header.
    rewrite !andb_true_iff, !negb_true_iff. tauto. }
  unfold rewritten. simpl. destruct (merge_vary _); simpl.
  - rewrite (other_headers_set "Vary") by (reflexivity || exact Hv).
    rewrite (other_headers_set "Content-Length")
      by (reflexivity || exact Hcl).
    now rewrite (other_headers_set "Content-Encoding")
      by (reflexivity || exact Hce).
  - rewrite (other_headers_set "Content-Length")
      by (reflexivity || exact Hcl).
    now rewrite (other_headers_set "Content-Encoding")
      by (reflexivity || exact Hce).
Qed.

Section Behaviour.
Context {C : Type} {backend : CacheBackend C} {codecs : Codecs}.

(** ** Eligibility, and what a run leaves alone *)

(** A response passes the first [if] exactly when its MIME type is in
    [COMPRESS_MIMETYPES], its status is from 200 to 299, its content
    length is known and at least [COMPRESS_MIN_SIZE], and no header is
    named [Content-Encoding] in any case.  So a length equal to the
    threshold passes and one byte less does not; 200 and 299 pass, 199 and
    300 do not. *)
Theorem eligible_iff (app : Config C) (r : Response) :
  not_eligible app r = false <->
  mimetype r ∈ COMPRESS_MIMETYPES app /\
  200 <= status_code r < 300 /\
  (exists n, content_length r = Some n /\ COMPRESS_MIN_SIZE app <= n) /\
  (forall k v, In (k, v) (headers r) ->
               str_lower k <> "content-encoding").
Proof.
  unfold not_eligible.
  rewrite !orb_false_iff, !negb_false_iff, bool_decide_eq_true,
    andb_true_iff, Z.leb_le, Z.ltb_lt.
  assert (Hcl : match content_length r with
                | Some n => n <? COMPRESS_MIN_SIZE app
                | None => true
                end = false <->
                exists n, content_length r = Some n /\
                          COMPRESS_MIN_SIZE app <= n).
  { destruct (content_length r) as [n|].
    - rewrite Z.ltb_ge. split.
      + intros Hn. now exists n.
      + now intros [m [[= <-] Hm]].
    - split; [discriminate | now intros [m [Hm _]]]. }
  assert (Hce : headers_contains "Content-Encoding" (headers r) = false <->
                forall k v, In (k, v) (headers r) ->
                            str_lower k <> "content-encoding").
  { rewrite <- not_true_iff_false, headers_contains_spec. simpl. split.
    - intros Hno k v Hin Hk. apply Hno. now exists k, v.
    - intros Hall [k [v [Hin Hk]]]. exact (Hall k v Hin Hk). }
  rewrite Hcl, Hce. tauto.
Qed.

(** Whatever a run does, it keeps the MIME type and the status of the
    response, and every header entry whose name is not [Content-Encoding],
    [Content-Length] or [Vary] stays, with its value and in its place
    among the others. *)
Theorem run_keeps_other_headers (self : Compress) (app : Config C)
    (request : Request) (w w' : World C) (r : Res unit) :
  after_request self app request w = (r, w') ->
  mimetype (response w') = mimetype (response w) /\
  status_code (response w') = status_code (response w) /\
  other_headers (headers (response w')) = other_headers (headers (response w)).
Proof.
  intros Hrun.
  destruct (compression_applied app request w) eqn:Happ.
  2:{ rewrite (after_request_not_applied _ _ _ _ Happ) in Hrun.
      now injection Hrun as _ <-. }
  destruct r as [[]|e].
  - destruct (after_request_return_inv _ _ _ _ _ Happ Hrun)
      as (encoding & content & w1 & _ & _ & ->). simpl.
    rewrite other_headers_rewritten. unfold rewritten. simpl.
    now destruct (merge_vary _).
  - apply after_request_raise_inv in Hrun as (_ & encoding & _ & Hc).
    apply compressed_content_response in Hc. now rewrite Hc.
Qed.

(** Running the hook twice in a row on a response is running it once:
    the second run finds [Content-Encoding] set, or finds what the first
    run found, and does nothing; after a failure there is no second run. *)
Theorem after_request_twice (self : Compress) (app : Config C)
    (request : Request) (w : World C) :
  (after_request self app request;; after_request self app request) w
  = after_request self app request w.
Proof.
  run_monad.
  destruct (after_request self app request w) as [[[]|e] w'] eqn:Hrun;
    [|reflexivity].
  destruct (compression_applied app request w) eqn:Happ.
  - destruct (after_request_return_inv _ _ _ _ _ Happ Hrun)
      as (encoding & content & w1 & _ & _ & ->).
    apply after_request_not_eligible.
    unfold not_eligible, headers_contains. simpl.
    rewrite rewritten_content_encoding. apply orb_true_r.
  - rewrite (after_request_not_applied _ _ _ _ Happ) in Hrun.
    injection Hrun as <-. now apply after_request_not_applied.
Qed.

(** ** [init_app] *)

(** After [init_app] every option of the extension is in [app.config]: an
    option the application had set keeps its value, also the value
    [None] of a cache option, and a missing one gets its default.  The
    functions registered before stay registered, and a second [init_app]
    changes nothing in the configuration. *)
Theorem init_app_fills_config (app : Flask C) :
  let cfg := apply_defaults (config app) in
  config (init_app_of (init_app app)) = all_present cfg /\
  (forall v, user_COMPRESS_MIMETYPES (config app) = Some v ->
             COMPRESS_MIMETYPES cfg = v) /\
  (forall v, user_COMPRESS_LEVEL (config app) = Some v ->
             COMPRESS_LEVEL cfg = v) /\
  (forall v, user_COMPRESS_MIN_SIZE (config app) = Some v ->
             COMPRESS_MIN_SIZE cfg = v) /\
  (forall v, user_ENABLE_GZIP (config app) = Some v -> ENABLE_GZIP cfg = v) /\
  (forall v, user_ENABLE_BROTLI (config app) = Some v ->
             ENABLE_BROTLI cfg = v) /\
  (forall v, user_GZIP_COMPRESS_CACHE_KEY (config app) = Some v ->
             GZIP_COMPRESS_CACHE_KEY cfg = v) /\
  (forall v, user_BROTLI_COMPRESS_CACHE_KEY (config app) = Some v ->
             BROTLI_COMPRESS_CACHE_KEY cfg = v) /\
  (forall v, user_COMPRESS_CACHE_BACKEND (config app) = Some v ->
             COMPRESS_CACHE_BACKEND cfg = v) /\
  (forall v, user_COMPRESS_REGISTER (config app) = Some v ->
             COMPRESS_REGISTER cfg = v) /\
  (config app = mkUserConfig None None None None None None None None None ->
   cfg = mkConfig TEXT_TYPES 6 500 true true None None None true) /\
  (exists added,
     after_request_funcs (init_app_of (init_app app))
     = (after_request_funcs app ++ added)%list) /\
  config (init_app_of (init_app (init_app_of (init_app app))))
  = config (init_app_of (init_app app)).
Proof.
  intros cfg. subst cfg.
  assert (Hcfg : forall a : Flask C,
            config (init_app_of (init_app a))
            = all_present (apply_defaults (config a))).
  { intros a. unfold init_app. now destruct (_ && _). }
  split; [apply Hcfg|].
  repeat (split;
          [intros v Hv; unfold apply_defaults; simpl; now rewrite Hv|]).
  split; [now intros ->|]. split.
  - unfold init_app. destruct (_ && _); simpl.
    + now eexists.
    + exists []. now rewrite app_nil_r.
  - now rewrite (Hcfg (init_app_of (init_app app))), Hcfg,
      apply_defaults_all_present.
Qed.

(** [init_app] builds a cache exactly when a backend is configured, and
    takes the key functions from the configuration it finds: the object
    holds them from then on. *)
Theorem init_app_captures_cache_options (app : Flask C) :
  (init_cache (init_app app) = None <->
   user_COMPRESS_CACHE_BACKEND (config app) = None \/
   user_COMPRESS_CACHE_BACKEND (config app) = Some None) /\
  _cache_keys (init_self (init_app app)) GZIP
    = GZIP_COMPRESS_CACHE_KEY (apply_defaults (config app)) /\
  _cache_keys (init_self (init_app app)) BROTLI
    = BROTLI_COMPRESS_CACHE_KEY (apply_defaults (config app)) /\
  (forall cfg' request w,
     COMPRESS_MIMETYPES cfg' = COMPRESS_MIMETYPES (apply_defaults (config app)) ->
     COMPRESS_LEVEL cfg' = COMPRESS_LEVEL (apply_defaults (config app)) ->
     COMPRESS_MIN_SIZE cfg' = COMPRESS_MIN_SIZE (apply_defaults (config app)) ->
     ENABLE_GZIP cfg' = ENABLE_GZIP (apply_defaults (config app)) ->
     ENABLE_BROTLI cfg' = ENABLE_BROTLI (apply_defaults (config app)) ->
     after_request (init_self (init_app app)) cfg' request w
     = after_request (init_self (init_app app))
         (apply_defaults (config app)) request w).
Proof.
  assert (Hself : init_self (init_app app)
                  = mkCompress
                      (GZIP_COMPRESS_CACHE_KEY (apply_defaults (config app)))
                      (BROTLI_COMPRESS_CACHE_KEY (apply_defaults (config app)))).
  { unfold init_app. now destruct (_ && _). }
  split; [|split; [|split]].
  - unfold init_app. destruct (_ && _); simpl;
      destruct (user_COMPRESS_CACHE_BACKEND (config app)) as [[c|]|];
      simpl; split; try tauto; try discriminate;
      intros [Hx | Hx]; discriminate.
  - now rewrite Hself.
  - now rewrite Hself.
  - intros cfg' request w Hm Hl Hs Hg Hb.
    destruct (apply_defaults (config app)) as [m l s g b kg kb cb reg].
    destruct cfg' as [m' l' s' g' b' kg' kb' cb' reg'].
    simpl in *. subst.
    set (cfg := mkConfig m l s g b kg kb cb reg).
    set (cfg' := mkConfig m l s g b kg' kb' cb' reg').
    assert (H1 : not_eligible cfg' = not_eligible cfg) by reflexivity.
    assert (H2 : select_encoding cfg' = select_encoding cfg) by reflexivity.
    assert (H3 : forall self encoding,
              apply_encoding self cfg' encoding
              = apply_encoding self cfg encoding)
      by (intros self []; reflexivity).
    unfold after_request. run_monad. rewrite H1, H2.
    destruct (not_eligible cfg (response w)); [reflexivity|].
    destruct (select_encoding cfg (accept_encoding_of request));
      [now rewrite H3 | reflexivity].
Qed.

Lemma init_app_result (app : Flask C) :
  let cfg := apply_defaults (config app) in
  let self := mkCompress (GZIP_COMPRESS_CACHE_KEY cfg)
                         (BROTLI_COMPRESS_CACHE_KEY cfg) in
  init_self (init_app app) = self /\
  init_app_of (init_app app)
  = mkFlask (all_present cfg)
      (after_request_funcs app ++
       if COMPRESS_REGISTER cfg && set_truthy (COMPRESS_MIMETYPES cfg)
       then [after_request self] else []).
Proof.
  intros cfg self. subst cfg self. unfold init_app.
  destruct (_ && _); simpl; [now split|].
  now rewrite app_nil_r.
Qed.

(** Calling [init_app] a second time on the same application registers
    the hook a second time, and the application still treats every
    response as after the first call. *)
Theorem init_app_twice (app : Flask C) (request : Request) (w : World C) :
  let once := init_app_of (init_app app) in
  let twice := init_app_of (init_app once) in
  (COMPRESS_REGISTER (apply_defaults (config app)) = true ->
   COMPRESS_MIMETYPES (apply_defaults (config app)) <> ∅ ->
   after_request_funcs twice
   = (after_request_funcs app
      ++ [after_request (init_self (init_app app));
          after_request (init_self (init_app app))])%list) /\
  process_response twice request w = process_response once request w.
Proof.
  intros once twice. subst once twice.
  destruct (init_app_result (init_app_of (init_app app))) as [_ ->].
  destruct (init_app_result app) as [-> ->].
  cbn [config after_request_funcs].
  rewrite apply_defaults_all_present.
  set (cfg := apply_defaults (config app)).
  set (self := mkCompress (GZIP_COMPRESS_CACHE_KEY cfg)
                          (BROTLI_COMPRESS_CACHE_KEY cfg)).
  set (reg := COMPRESS_REGISTER cfg && set_truthy (COMPRESS_MIMETYPES cfg)).
  split.
  - intros Hr Hm. subst reg. rewrite Hr. unfold set_truthy.
    rewrite bool_decide_eq_false_2 by exact Hm.
    cbn [negb andb]. now rewrite <- app_assoc.
  - unfold process_response. cbn [config after_request_funcs].
    rewrite apply_defaults_all_present. fold cfg.
    destruct reg.
    + rewrite !rev_app_distr. cbn [List.rev List.app run_hooks].
      pose proof (after_request_twice self cfg request w) as Htw.
      run_monad.
      destruct (after_request self cfg request w) as [[[]|e] w1];
        [|reflexivity].
      now rewrite Htw.
    + now rewrite !app_nil_r.
Qed.

(** ** The engines *)

Lemma _compress_methods_calls (encoding : Encoding) (app : Config C)
    (w w1 : World C) (r : Res bytes) :
  _compress_methods encoding app w = (r, w1) ->
  exists call, calls w1 = (calls w ++ [call])%list.
Proof.
  destruct encoding; simpl.
  - rewrite _brotli_compress_run. intros [= _ <-]. now eexists.
  - rewrite _gzip_compress_run. intros [= _ <-]. now eexists.
Qed.

Lemma no_cache_run (self : Compress) (app : Config C) (request : Request)
    (w : World C) (encoding : Encoding) :
  not_eligible app (response w) = false ->
  select_encoding app (accept_encoding_of request) = Some encoding ->
  _cache w = None ->
  after_request self app request w
  = match _compress_methods encoding app (cleared w) with
    | (Return out, w1) =>
        (Return tt,
         mkWorld (rewritten encoding out
                    (with_direct_passthrough false (response w)))
                 None (calls w1))
    | (Raise e, w1) => (Raise e, w1)
    end.
Proof.
  intros Hel Hs Hc.
  rewrite (after_request_selected _ _ _ _ _ Hel Hs), apply_encoding_run,
    compressed_content_no_cache by exact Hc.
  destruct (_compress_methods encoding app (cleared w)) as [[out|e] w1] eqn:Hm;
    [|reflexivity].
  destruct encoding; simpl in Hm.
  - rewrite _brotli_compress_run in Hm. injection Hm as _ <-. simpl.
    now rewrite Hc.
  - rewrite _gzip_compress_run in Hm. injection Hm as _ <-. simpl.
    now rewrite Hc.
Qed.

Lemma TEXT_TYPES_members (m : string) :
  m ∈ TEXT_TYPES <->
  m = "text/html" \/ m = "text/css" \/ m = "text/xml" \/
  m = "application/json" \/ m = "application/javascript".
Proof.
  unfold TEXT_TYPES. rewrite !elem_of_union, !elem_of_singleton. tauto.
Qed.

(** Without a cache, a response that is handed to Brotli makes one call
    of the engine: on the body as it came, with the quality
    [COMPRESS_LEVEL] as configured, whatever its value, and with the text
    mode exactly when the MIME type is one of the five of [TEXT_TYPES];
    any other type that the application has allowed gets the generic
    mode.  What the engine answers is the new body, under
    [Content-Encoding: brotli]; what it raises comes out. *)
Theorem brotli_called_with_level_and_mode (self : Compress) (app : Config C)
    (request : Request) (w : World C) :
  not_eligible app (response w) = false ->
  select_encoding app (accept_encoding_of request) = Some BROTLI ->
  _cache w = None ->
  exists mode,
    calls (snd (after_request self app request w))
    = (calls w
       ++ [BrotliCall (data (response w)) mode (COMPRESS_LEVEL app)])%list /\
    (mode = MODE_TEXT <->
     mimetype (response w) = "text/html" \/
     mimetype (response w) = "text/css" \/
     mimetype (response w) = "text/xml" \/
     mimetype (response w) = "application/json" \/
     mimetype (response w) = "application/javascript") /\
    (mode = MODE_GENERIC \/ mode = MODE_TEXT) /\
    (forall out,
       brotli_compress (data (response w)) mode (COMPRESS_LEVEL app)
         = Return out ->
       fst (after_request self app request w) = Return tt /\
       data (response (snd (after_request self app request w))) = out /\
       headers_get "Content-Encoding"
         (headers (response (snd (after_request self app request w))))
         = Some "brotli") /\
    (forall e,
       brotli_compress (data (response w)) mode (COMPRESS_LEVEL app)
         = Raise e ->
       fst (after_request self app request w) = Raise e).
Proof.
  intros Hel Hs Hc.
  rewrite (no_cache_run _ _ _ _ BROTLI Hel Hs Hc).
  unfold _compress_methods. rewrite _brotli_compress_run. simpl.
  exists (if bool_decide (mimetype (response w) ∈ TEXT_TYPES)
          then MODE_TEXT else MODE_GENERIC).
  split; [|split; [|split; [|split]]].
  - now destruct (brotli_compress _ _ _).
  - rewrite <- TEXT_TYPES_members.
    destruct (bool_decide (mimetype (response w) ∈ TEXT_TYPES)) eqn:E.
    + apply bool_decide_eq_true in E. tauto.
    + apply bool_decide_eq_false in E. split; [discriminate | tauto].
  - destruct (bool_decide _); tauto.
  - intros out ->. simpl. split; [reflexivity|]. split.
    + now destruct (rewritten_content_length BROTLI out
                      (with_direct_passthrough false (response w)))
        as (_ & _ & ->).
    + apply rewritten_content_encoding.
  - now intros e ->.
Qed.

(** Without a cache, a response that is handed to gzip makes one call of
    the engine on the body as it came.  For a [COMPRESS_LEVEL] of at most
    9 the level of that call is [min(9, COMPRESS_LEVEL)]; what the engine
    answers is the new body, under [Content-Encoding: gzip]. *)
Theorem gzip_called_within_range (self : Compress) (app : Config C)
    (request : Request) (w : World C) :
  not_eligible app (response w) = false ->
  select_encoding app (accept_encoding_of request) = Some GZIP ->
  _cache w = None ->
  COMPRESS_LEVEL app <= 9 ->
  calls (snd (after_request self app request w))
  = (calls w
     ++ [GzipCall (Z.min Z_BEST_COMPRESSION (COMPRESS_LEVEL app))
           (data (response w))])%list /\
  (forall out,
     GzipFile_write (Z.min Z_BEST_COMPRESSION (COMPRESS_LEVEL app))
       (data (response w)) = Return out ->
     fst (after_request self app request w) = Return tt /\
     data (response (snd (after_request self app request w))) = out /\
     headers_get "Content-Encoding"
       (headers (response (snd (after_request self app request w))))
       = Some "gzip").
Proof.
  intros Hel Hs Hc Hlevel.
  rewrite (no_cache_run _ _ _ _ GZIP Hel Hs Hc).
  unfold _compress_methods. rewrite _gzip_compress_run. simpl.
  assert (Hmin : Z.min Z_BEST_COMPRESSION (COMPRESS_LEVEL app)
                 = COMPRESS_LEVEL app) by (unfold Z_BEST_COMPRESSION; lia).
  rewrite Hmin. split.
  - now destruct (GzipFile_write _ _).
  - intros out ->. simpl. split; [reflexivity|]. split.
    + now destruct (rewritten_content_length GZIP out
                      (with_direct_passthrough false (response w)))
        as (_ & _ & ->).
    + apply rewritten_content_encoding.
Qed.

(** ** The cache in a run *)

(** A value found under the key is served as it is, by whichever encoding
    it was stored: the body is the cached value, [Content-Encoding] names
    the encoding selected now, no engine is called, and the value is
    stored again under the key. *)
Theorem cache_hit_served_as_found (self : Compress) (app : Config C)
    (request : Request) (w : World C) (encoding : Encoding) (c c1 c2 : C)
    (f : KeyFn) (key : string) (b : bytes) :
  not_eligible app (response w) = false ->
  select_encoding app (accept_encoding_of request) = Some encoding ->
  _cache w = Some c ->
  _cache_keys self encoding = Some f ->
  f (with_direct_passthrough false (response w)) = Return key ->
  cache_get key c = (Return (Some b), c1) ->
  b <> [] ->
  cache_set key b c1 = (Return tt, c2) ->
  exists w',
    after_request self app request w = (Return tt, w') /\
    data (response w') = b /\
    headers_get "Content-Encoding" (headers (response w'))
      = Some (CONTENT_ENCODINGS encoding) /\
    headers_get "Content-Length" (headers (response w'))
      = Some (str_of_int (len b)) /\
    calls w' = calls w /\
    _cache w' = Some c2.
Proof.
  intros Hel Hs Hc Hk Hf Hg Hb Hset.
  rewrite (after_request_selected _ _ _ _ _ Hel Hs), apply_encoding_run.
  rewrite (compressed_content_cached self app encoding (cleared w) c c1 f key
             (Some b)) by assumption.
  unfold cached_or_compress. destruct b as [|x b]; [now destruct Hb|].
  cbn [bytes_truthy]. unfold ret. rewrite Hset.
  eexists. split; [reflexivity|]. cbn [response calls _cache cleared].
  destruct (rewritten_content_length encoding (x :: b)
              (with_direct_passthrough false (response w)))
    as (Hcl & _ & Hdata).
  split; [exact Hdata|]. split; [apply rewritten_content_encoding|].
  split; [exact Hcl|]. split; reflexivity.
Qed.

(** A lookup that answers nothing, or an empty value, is a miss: the
    engine of the selected encoding is called once on the body, and what
    it answers is stored under the key and becomes the new body. *)
Theorem cache_miss_compresses_and_stores (self : Compress) (app : Config C)
    (request : Request) (w w1 : World C) (encoding : Encoding) (c c1 c2 : C)
    (f : KeyFn) (key : string) (cached : option bytes) (out : bytes) :
  not_eligible app (response w) = false ->
  select_encoding app (accept_encoding_of request) = Some encoding ->
  _cache w = Some c ->
  _cache_keys self encoding = Some f ->
  f (with_direct_passthrough false (response w)) = Return key ->
  cache_get key c = (Return cached, c1) ->
  cached = None \/ cached = Some [] ->
  _compress_methods encoding app
    (mkWorld (with_direct_passthrough false (response w)) (Some c1) (calls w))
    = (Return out, w1) ->
  cache_set key out c1 = (Return tt, c2) ->
  exists w' call,
    after_request self app request w = (Return tt, w') /\
    data (response w') = out /\
    headers_get "Content-Encoding" (headers (response w'))
      = Some (CONTENT_ENCODINGS encoding) /\
    calls w' = (calls w ++ [call])%list /\
    _cache w' = Some c2.
Proof.
  intros Hel Hs Hc Hk Hf Hg Hmiss Hm Hset.
  rewrite (after_request_selected _ _ _ _ _ Hel Hs), apply_encoding_run.
  rewrite (compressed_content_cached self app encoding (cleared w) c c1 f key
             cached) by assumption.
  assert (Hcc : cached_or_compress encoding app cached
                  (mkWorld (response (cleared w)) (Some c1)
                     (calls (cleared w)))
                = (Return out, w1)).
  { unfold cached_or_compress. now destruct Hmiss as [-> | ->]. }
  rewrite Hcc, Hset.
  apply _compress_methods_calls in Hm as [call Hcall].
  eexists. exists call. split; [reflexivity|].
  cbn [response calls _cache cleared].
  destruct (rewritten_content_length encoding out
              (with_direct_passthrough false (response w)))
    as (_ & _ & Hdata).
  split; [exact Hdata|]. split; [apply rewritten_content_encoding|].
  split; [exact Hcall | reflexivity].
Qed.

(** ** The defaults *)

(** An application that has not set [COMPRESS_MIMETYPES] gets the five
    text types: a response of any other MIME type, such as [image/png],
    comes back as it was. *)
Theorem default_mimetypes_only (self : Compress) (user : UserConfig C)
    (request : Request) (w : World C) :
  user_COMPRESS_MIMETYPES user = None ->
  mimetype (response w) <> "text/html" ->
  mimetype (response w) <> "text/css" ->
  mimetype (response w) <> "text/xml" ->
  mimetype (response w) <> "application/json" ->
  mimetype (response w) <> "application/javascript" ->
  after_request self (apply_defaults user) request w = (Return tt, w).
Proof.
  intros Huser H1 H2 H3 H4 H5. apply after_request_not_eligible.
  apply not_eligible_true_iff. left.
  unfold apply_defaults. simpl. rewrite Huser. simpl.
  rewrite TEXT_TYPES_members. tauto.
Qed.

(** ** The [Vary] header, in general *)

(** When compression is applied to a response whose [Vary] is not empty
    and does not mention accept-encoding, the new value is the old one
    followed by ", Accept-Encoding": the tokens it had stay, in their
    order, and [Accept-Encoding] comes last.  A [Vary] header that is
    there but empty is replaced by [Accept-Encoding]. *)
Theorem vary_tokens_appended (self : Compress) (app : Config C)
    (request : Request) (w w' : World C) (v : string) :
  compression_applied app request w = true ->
  after_request self app request w = (Return tt, w') ->
  headers_get "Vary" (headers (response w)) = Some v ->
  (v <> "" -> ~ Occurs "accept-encoding" (str_lower v) ->
   headers_get "Vary" (headers (response w'))
     = Some (v ++ ", Accept-Encoding")%string /\
   header_tokens (v ++ ", Accept-Encoding")
     = (header_tokens v ++ ["Accept-Encoding"])%list) /\
  (v = "" ->
   headers_get "Vary" (headers (response w')) = Some "Accept-Encoding").
Proof.
  intros Happ Hrun Hv.
  assert (Htok : header_tokens (v ++ ", Accept-Encoding")
                 = (header_tokens v ++ ["Accept-Encoding"])%list).
  { unfold header_tokens.
    change (v ++ ", Accept-Encoding")%string
      with (v ++ String "," " Accept-Encoding")%string.
    now rewrite split_commas_app, map_app. }
  destruct (after_request_return_inv _ _ _ _ _ Happ Hrun)
    as (encoding & content & w1 & _ & _ & ->).
  cbn [response]. rewrite rewritten_merged_vary.
  cbn [headers with_direct_passthrough]. rewrite Hv.
  unfold merged_vary, merge_vary. split.
  - intros Hne Hno. split; [|exact Htok].
    destruct (str_contains "accept-encoding" (str_lower v)) eqn:E.
    { apply str_contains_spec in E. contradiction. }
    destruct v as [|x v]; [now destruct Hne | reflexivity].
  - now intros ->.
Qed.

(** ** The switches *)

(** An encoding that is switched off is never selected, whatever the
    request asks for; with both switched off the hook returns every
    response as it was. *)
Theorem disabled_encoding_never_selected (self : Compress) (app : Config C)
    (request : Request) (w : World C) :
  (ENABLE_BROTLI app = false ->
   select_encoding app (accept_encoding_of request) <> Some BROTLI) /\
  (ENABLE_GZIP app = false ->
   select_encoding app (accept_encoding_of request) <> Some GZIP) /\
  (ENABLE_BROTLI app = false -> ENABLE_GZIP app = false ->
   after_request self app request w = (Return tt, w)).
Proof.
  split; [|split].
  - intros Hoff Hs. apply select_encoding_brotli in Hs as [Hon _]. congruence.
  - intros Hoff Hs. apply select_encoding_gzip in Hs as (_ & Hon & _).
    congruence.
  - intros Hb Hg. apply after_request_no_encoding.
    apply select_encoding_none. split; intros [Hon _]; congruence.
Qed.

(** ** How often the engines run *)

Lemma _compress_methods_run (encoding : Encoding) (app : Config C)
    (w w' : World C) (r : Res bytes) :
  _compress_methods encoding app w = (r, w') ->
  w' = mkWorld (response w) (_cache w)
         (calls w ++ [engine_call encoding app (response w)]).
Proof.
  destruct encoding; simpl.
  - rewrite _brotli_compress_run. now intros [= _ <-].
  - rewrite _gzip_compress_run. now intros [= _ <-].
Qed.

Lemma compressed_content_calls (self : Compress) (app : Config C)
    (encoding : Encoding) (w w' : World C) (r : Res bytes) :
  compressed_content self app encoding w = (r, w') ->
  calls w' = calls w \/
  calls w' = (calls w ++ [engine_call encoding app (response w)])%list.
Proof.
  destruct (_cache w) as [c|] eqn:Hc.
  2:{ rewrite compressed_content_no_cache by exact Hc. intros Hm.
      right. now rewrite (_compress_methods_run _ _ _ _ _ Hm). }
  destruct (_cache_keys self encoding) as [f|] eqn:Hk.
  2:{ unfold compressed_content, call_key. run_monad. rewrite Hc, Hk.
      intros [= _ <-]. now left. }
  destruct (f (response w)) as [key|e] eqn:Hf.
  2:{ rewrite (compressed_content_key_error _ _ _ _ c f e) by assumption.
      intros [= _ <-]. now left. }
  destruct (cache_get key c) as [[cached|e] c1] eqn:Hg.
  2:{ rewrite (compressed_content_get_error _ _ _ _ c c1 f key e)
        by assumption.
      intros [= _ <-]. now left. }
  rewrite (compressed_content_cached _ _ _ _ c c1 f key cached) by assumption.
  destruct (cached_or_compress encoding app cached _) as [[content|e] w2]
    eqn:Hm.
  - assert (Hw2 : calls w2 = calls w \/
                  calls w2
                  = (calls w ++ [engine_call encoding app (response w)])%list).
    { unfold cached_or_compress in Hm.
      destruct cached as [b|]; [destruct (bytes_truthy b)|].
      - unfold ret in Hm. injection Hm as _ <-. now left.
      - right. now rewrite (_compress_methods_run _ _ _ _ _ Hm).
      - right. now rewrite (_compress_methods_run _ _ _ _ _ Hm). }
    destruct (cache_set key content c1) as [[[]|e] c2];
      intros [= _ <-]; exact Hw2.
  - intros [= _ <-].
    unfold cached_or_compress in Hm.
    destruct cached as [b|]; [destruct (bytes_truthy b)|].
    + discriminate.
    + right. now rewrite (_compress_methods_run _ _ _ _ _ Hm).
    + right. now rewrite (_compress_methods_run _ _ _ _ _ Hm).
Qed.

(** A run calls an engine at most once, and then the engine of the
    selected encoding, on the body as the response came and with
    [COMPRESS_LEVEL]; a run that does not go past the two early returns
    calls none.  Without a configured cache no cache appears. *)
Theorem at_most_one_engine_call (self : Compress) (app : Config C)
    (request : Request) (w w' : World C) (r : Res unit) :
  after_request self app request w = (r, w') ->
  (calls w' = calls w \/
   exists encoding,
     select_encoding app (accept_encoding_of request) = Some encoding /\
     calls w'
     = (calls w ++ [engine_call encoding app (response w)])%list) /\
  (compression_applied app request w = false -> calls w' = calls w) /\
  (_cache w = None -> _cache w' = None).
Proof.
  intros Hrun.
  destruct (compression_applied app request w) eqn:Happ.
  2:{ rewrite (after_request_not_applied _ _ _ _ Happ) in Hrun.
      injection Hrun as _ <-. repeat split; auto. }
  assert (Hsel : exists encoding,
            not_eligible app (response w) = false /\
            select_encoding app (accept_encoding_of request) = Some encoding).
  { unfold compression_applied in Happ.
    apply andb_true_iff in Happ as [Hel Hs].
    apply negb_true_iff in Hel.
    destruct (select_encoding app (accept_encoding_of request)) as [enc|];
      [now exists enc | discriminate]. }
  destruct Hsel as (encoding & Hel & Hs).
  rewrite (after_request_selected _ _ _ _ _ Hel Hs), apply_encoding_run
    in Hrun.
  destruct (compressed_content self app encoding (cleared w))
    as [[content|e] w1] eqn:Hc.
  - injection Hrun as _ <-. cbn [calls _cache].
    split; [|split; [discriminate|]].
    + apply compressed_content_calls in Hc as [Hc | Hc]; [now left | right].
      exists encoding. split; [exact Hs|]. rewrite Hc.
      now destruct encoding.
    + intros Hnone.
      rewrite compressed_content_no_cache in Hc by exact Hnone.
      now rewrite (_compress_methods_run _ _ _ _ _ Hc).
  - injection Hrun as _ <-.
    split; [|split; [discriminate|]].
    + apply compressed_content_calls in Hc as [Hc | Hc]; [now left | right].
      exists encoding. split; [exact Hs|]. rewrite Hc.
      now destruct encoding.
    + intros Hnone.
      rewrite compressed_content_no_cache in Hc by exact Hnone.
      now rewrite (_compress_methods_run _ _ _ _ _ Hc).
Qed.

End Behaviour.

(** ** The pipeline with the dictionary cache *)

(** With the dictionary as cache, a run that compresses and returns
    leaves the body it serves stored under the key of the response: the
    cache and the response agree, after a hit as after a miss. *)
Theorem served_body_is_cached {codecs : Codecs} (self : Compress)
    (app : Config DictCache) (request : Request) (w w' : World DictCache)
    (key : string) :
  _cache w <> None ->
  filed_under self app request (response w) = Some key ->
  after_request self app request w = (Return tt, w') ->
  exists c', _cache w' = Some c' /\
             cache_data c' !! key = Some (data (response w')).
Proof.
  intros Hcache Hkey Hrun. unfold filed_under in Hkey.
  destruct (not_eligible app (response w)) eqn:Hel; [discriminate|].
  destruct (select_encoding app (accept_encoding_of request))
    as [encoding|] eqn:Hs; [|discriminate].
  destruct (_cache_keys self encoding) as [f|] eqn:Hk; [|discriminate].
  destruct (f _) as [k|] eqn:Hf; [|discriminate].
  injection Hkey as ->.
  destruct (_cache w) as [c|] eqn:Hc; [clear Hcache | now destruct Hcache].
  rewrite (after_request_selected _ _ _ _ _ Hel Hs), apply_encoding_run
    in Hrun.
  rewrite (compressed_content_cached self app encoding (cleared w) c c f key
             (cache_data c !! key)) in Hrun by (assumption || reflexivity).
  destruct (cached_or_compress encoding app (cache_data c !! key) _)
    as [[content|e] wm]; [|discriminate].
  simpl in Hrun. injection Hrun as <-. simpl.
  eexists. split; [reflexivity|]. simpl.
  rewrite lookup_insert_eq.
  now destruct (rewritten_content_length encoding content
                  (with_direct_passthrough false (response w)))
    as (_ & _ & ->).
Qed.

(** ** More theorems at work *)

(** A page with a header of the application's own, compressed. *)
Lemma run_keeps_other_headers_witness :
  let w := world_of (page [("X-Frame-Options", "DENY"); ("Vary", "Cookie")])
             None in
  let run := after_request (mkCompress None None) default_config
               (asking "gzip") w in
  other_headers (headers (response (snd run)))
  = [("X-Frame-Options", "DENY")].
Proof.
  intros w run.
  refine (eq_trans (proj2 (proj2
    (run_keeps_other_headers (mkCompress None None) default_config
       (asking "gzip") w (snd run) (fst run) _))) eq_refl).
  apply surjective_pairing.
Defined.

(** A page asked for with [Accept-Encoding: brotli]. *)
Lemma brotli_called_with_level_and_mode_witness :
  let w := world_of (page []) None in
  exists mode,
    calls (snd (after_request (mkCompress None None) default_config
                  (asking "brotli") w))
    = [BrotliCall page_body mode 6].
Proof.
  intros w.
  destruct (brotli_called_with_level_and_mode (mkCompress None None)
              default_config (asking "brotli") w eq_refl eq_refl eq_refl)
    as (mode & Hcalls & _).
  exists mode. exact Hcalls.
Defined.

(** A page asked for with [Accept-Encoding: gzip], at level 6. *)
Lemma gzip_called_within_range_witness :
  let w := world_of (page []) None in
  calls (snd (after_request (mkCompress None None) default_config
                (asking "gzip") w))
  = [GzipCall 6 page_body].
Proof.
  intros w.
  refine (proj1 (gzip_called_within_range (mkCompress None None)
                   default_config (asking "gzip") w eq_refl eq_refl eq_refl _)).
  simpl. lia.
Defined.

(** A cache that holds two bytes under the key of the page: a request
    for Brotli is served these bytes. *)
Lemma cache_hit_served_as_found_witness :
  let self := mkCompress (Some path_key) (Some path_key) in
  let c := mkDictCache (<["/large/" := [Byte.x1f; Byte.x8b]]> ∅) in
  let w := world_of (page []) (Some c) in
  exists w',
    after_request self default_config (asking "brotli") w = (Return tt, w') /\
    data (response w') = [Byte.x1f; Byte.x8b] /\
    headers_get "Content-Encoding" (headers (response w')) = Some "brotli" /\
    calls w' = [].
Proof.
  intros self c w.
  destruct (cache_hit_served_as_found self default_config (asking "brotli")
              w BROTLI c c
              (snd (DictCache_set "/large/" [Byte.x1f; Byte.x8b] c))
              path_key "/large/" [Byte.x1f; Byte.x8b])
    as (w' & Hrun & Hdata & Hce & _ & Hcalls & _);
    try reflexivity; try discriminate.
  exists w'. repeat split; assumption.
Defined.

(** An empty cache: the page is compressed and stored. *)
Lemma cache_miss_compresses_and_stores_witness :
  let self := mkCompress (Some path_key) (Some path_key) in
  let w := world_of (page []) (Some DictCache_init) in
  exists w' call,
    after_request self default_config (asking "gzip") w = (Return tt, w') /\
    data (response w') = Byte.x1f :: Byte.x8b :: page_body /\
    calls w' = [call].
Proof.
  intros self w.
  destruct (cache_miss_compresses_and_stores self default_config
              (asking "gzip") w
              (mkWorld (with_direct_passthrough false (page []))
                 (Some DictCache_init) [GzipCall 6 page_body])
              GZIP DictCache_init DictCache_init
              (snd (DictCache_set "/large/" (Byte.x1f :: Byte.x8b :: page_body)
                      DictCache_init))
              path_key "/large/" None (Byte.x1f :: Byte.x8b :: page_body))
    as (w' & call & Hrun & Hdata & _ & Hcalls & _);
    try reflexivity; [now left|].
  exists w', call. repeat split; assumption.
Defined.

(** An image under the defaults. *)
Lemma default_mimetypes_only_witness :
  let w := world_of (mkResponse "image/png" 200 (Some 600) [] page_body false)
             None in
  after_request (mkCompress None None) (apply_defaults no_config)
    (asking "gzip") w
  = (Return tt, w).
Proof.
  intros w.
  apply (default_mimetypes_only (mkCompress None None) no_config
           (asking "gzip") w); [reflexivity | discriminate..].
Defined.

(** A first request with the dictionary as cache. *)
Lemma served_body_is_cached_witness :
  let self := mkCompress (Some path_key) (Some path_key) in
  let w := world_of (page []) (Some DictCache_init) in
  let w' := snd (after_request self default_config (asking "gzip") w) in
  exists c', _cache w' = Some c' /\
             cache_data c' !! "/large/" = Some (data (response w')).
Proof.
  intros self w w'.
  apply (served_body_is_cached self default_config (asking "gzip") w w'
           "/large/").
  - discriminate.
  - reflexivity.
  - assert (Hfst : fst (after_request self default_config (asking "gzip") w)
                   = Return tt) by (vm_compute; reflexivity).
    unfold w'.
    destruct (after_request self default_config (asking "gzip") w);
      simpl in *. now rewrite Hfst.
Defined.

(** A page with [Vary: Cookie, Origin], compressed. *)
Lemma vary_tokens_appended_witness :
  let w := world_of (page [("Vary", "Cookie, Origin")]) None in
  let w' := snd (after_request (mkCompress None None) default_config
                   (asking "gzip") w) in
  headers_get "Vary" (headers (response w'))
    = Some "Cookie, Origin, Accept-Encoding" /\
  header_tokens "Cookie, Origin, Accept-Encoding"
    = ["Cookie"; "Origin"; "Accept-Encoding"].
Proof.
  intros w w'.
  refine (proj1 (vary_tokens_appended (mkCompress None None) default_config
                   (asking "gzip") w w' "Cookie, Origin" eq_refl _ eq_refl)
            _ _).
  - vm_compute. reflexivity.
  - discriminate.
  - apply not_Occurs. reflexivity.
Defined.

(** A page compressed without a cache: one call, and still no cache. *)
Lemma at_most_one_engine_call_witness :
  let w := world_of (page []) None in
  let run := after_request (mkCompress None None) default_config
               (asking "gzip") w in
  _cache (snd run) = None.
Proof.
  intros w run.
  refine (proj2 (proj2 (at_most_one_engine_call (mkCompress None None)
                          default_config (asking "gzip") w (snd run) (fst run)
                          _)) eq_refl).
  apply surjective_pairing.
Defined.
